(** * Cursor pagination of typeorm-graphql-pagination (src/index.ts)

    A shallow embedding of the cursor codec ([encodeCursor], [decodeCursor])
    and of the paginator ([paginate]), followed by the properties of the
    specification that were checked against them. *)

From Stdlib Require Import ZArith List String Ascii Bool Lia.
From Stdlib Require Import Decimal DecimalString DecimalPos DecimalZ.
Import ListNotations.

#[local] Open Scope string_scope.
#[local] Open Scope Z_scope.

(* ===================================================================== *)
(** * The fragment of JavaScript the source relies on *)
(* ===================================================================== *)

Module JS.

(** A value read out of the [any[]] produced by [String.prototype.split]:
    an element of the array, or [undefined] past its end. *)
Inductive value : Type :=
| Undefined
| Str (s : string).

(** [a === b] on values of the two kinds above. *)
Definition strict_eq (a b : value) : bool :=
  match a, b with
  | Undefined, Undefined => true
  | Str x, Str y => String.eqb x y
  | _, _ => false
  end.

(** [a !== b]. *)
Definition strict_neq (a b : value) : bool := negb (strict_eq a b).

(** Truthiness of a string: every string but the empty one. *)
Definition truthy_string (s : string) : bool := negb (String.eqb s "").

(** Truthiness of an optional boolean ([validateCursor?: boolean]). *)
Definition truthy_flag (b : option bool) : bool :=
  match b with
  | Some true => true
  | _ => false
  end.

(** [l[i]] for an array [l]: [None] stands for [undefined]. *)
Definition at_index {A : Type} (l : list A) (i : Z) : option A :=
  if i <? 0 then None else nth_error l (Z.to_nat i).

(** [s.split(sep)] for a one-character separator.  The result is never
    empty: [''.split('|')] is [['']]. *)
Fixpoint split (sep : ascii) (s : string) : list string :=
  match s with
  | EmptyString => [EmptyString]
  | String c rest =>
      if Ascii.eqb c sep then EmptyString :: split sep rest
      else match split sep rest with
           | field :: fields => String c field :: fields
           | [] => [String c EmptyString]
           end
  end.

(** [a[k]] as a [value]. *)
Definition element (a : list string) (k : nat) : value :=
  match nth_error a k with
  | Some s => Str s
  | None => Undefined
  end.

(** [true] when the character [c] occurs in [s]. *)
Fixpoint occurs (c : ascii) (s : string) : bool :=
  match s with
  | EmptyString => false
  | String d rest => Ascii.eqb d c || occurs c rest
  end.

(** [true] when every character of [s] satisfies [p]. *)
Fixpoint every (p : ascii -> bool) (s : string) : bool :=
  match s with
  | EmptyString => true
  | String c rest => p c && every p rest
  end.

(** The characters of a decimal integer literal: the digits and [-]. *)
Definition is_decimal_char (c : ascii) : bool :=
  let n := nat_of_ascii c in
  ((48 <=? n) && (n <=? 57) || (n =? 45))%nat.

(** ** White space *)

(** The one-byte members of StrWhiteSpaceChar: TAB, LF, VT, FF, CR, SP. *)
Definition is_white_space (c : ascii) : bool :=
  match nat_of_ascii c with
  | 9%nat | 10%nat | 11%nat | 12%nat | 13%nat | 32%nat => true
  | _ => false
  end.

(** The string of the bytes [codes]. *)
Definition bytes (codes : list nat) : string :=
  fold_right (fun n s => String (ascii_of_nat n) s) EmptyString codes.

(** The other members of StrWhiteSpaceChar, as the bytes of their UTF-8
    form: U+00A0, U+1680, U+2000 to U+200A, U+2028, U+2029, U+202F,
    U+205F, U+3000 and U+FEFF. *)
Definition wide_white_space : list string :=
  List.map bytes
    [ [194; 160]; [225; 154; 128];
      [226; 128; 128]; [226; 128; 129]; [226; 128; 130]; [226; 128; 131];
      [226; 128; 132]; [226; 128; 133]; [226; 128; 134]; [226; 128; 135];
      [226; 128; 136]; [226; 128; 137]; [226; 128; 138];
      [226; 128; 168]; [226; 128; 169]; [226; 128; 175];
      [226; 129; 159]; [227; 128; 128]; [239; 187; 191] ]%nat.

(** [s] without the prefix [p], when it starts with [p]. *)
Fixpoint drop_prefix (p s : string) : option string :=
  match p, s with
  | EmptyString, _ => Some s
  | String a p', String b s' =>
      if Ascii.eqb a b then drop_prefix p' s' else None
  | String _ _, EmptyString => None
  end.

(** [s] without the white space character it starts with, if any. *)
Definition drop_white_space (s : string) : option string :=
  match s with
  | EmptyString => None
  | String c rest =>
      if is_white_space c then Some rest
      else fold_right (fun p found => match drop_prefix p s with
                                      | Some after => Some after
                                      | None => found
                                      end)
                      None wide_white_space
  end.

(** [s] without the white space it starts with, [n] characters of it at
    most. *)
Fixpoint trim_start_upto (n : nat) (s : string) : string :=
  match n with
  | O => s
  | S n' => match drop_white_space s with
            | Some rest => trim_start_upto n' rest
            | None => s
            end
  end.

Definition trim_start (s : string) : string :=
  trim_start_upto (String.length s) s.

(** [true] when [s] is white space only, of [n] characters at most. *)
Fixpoint all_white_space_upto (n : nat) (s : string) : bool :=
  match s, n with
  | EmptyString, _ => true
  | _, O => false
  | _, S n' => match drop_white_space s with
               | Some rest => all_white_space_upto n' rest
               | None => false
               end
  end.

Definition all_white_space (s : string) : bool :=
  all_white_space_upto (String.length s) s.

(** [s] without the white space it ends with. *)
Fixpoint trim_end (s : string) : string :=
  match s with
  | EmptyString => EmptyString
  | String c rest =>
      if all_white_space s then EmptyString else String c (trim_end rest)
  end.

Definition trim (s : string) : string := trim_end (trim_start s).

(** ** Numeric literals *)

(** The value of the digit [c], up to radix 16. *)
Definition digit_value (c : ascii) : option Z :=
  let n := nat_of_ascii c in
  if ((48 <=? n) && (n <=? 57))%nat then Some (Z.of_nat (n - 48))
  else if ((97 <=? n) && (n <=? 102))%nat then Some (Z.of_nat (n - 87))
  else if ((65 <=? n) && (n <=? 70))%nat then Some (Z.of_nat (n - 55))
  else None.

(** The digits [s] of the radix, read after the value [acc]. *)
Fixpoint digits_onto (radix acc : Z) (s : string) : option Z :=
  match s with
  | EmptyString => Some acc
  | String c rest =>
      match digit_value c with
      | Some d => if d <? radix then digits_onto radix (acc * radix + d) rest
                  else None
      | None => None
      end
  end.

(** The value of a non-empty string of digits of the radix. *)
Definition digits (radix : Z) (s : string) : option Z :=
  match s with
  | EmptyString => None
  | _ => digits_onto radix 0 s
  end.

(** The decimal digits [s] starts with, and what follows them. *)
Fixpoint leading_digits (s : string) : string * string :=
  match s with
  | EmptyString => (EmptyString, EmptyString)
  | String c rest =>
      let n := nat_of_ascii c in
      if ((48 <=? n) && (n <=? 57))%nat
      then let (ds, after) := leading_digits rest in (String c ds, after)
      else (EmptyString, s)
  end.

(** An optional sign: [true] for [-]. *)
Definition signed (s : string) : bool * string :=
  match s with
  | EmptyString => (false, EmptyString)
  | String c rest =>
      if Ascii.eqb c "-" then (true, rest)
      else if Ascii.eqb c "+" then (false, rest)
      else (false, s)
  end.

(** What a numeric literal denotes: [mantissa * 10 ^ exponent], or an
    infinity. *)
Inductive quantity : Type :=
| Finite (mantissa exponent : Z)
| Infinite (negative : bool).

(** NonDecimalIntegerLiteral: [0x], [0o] and [0b] with their digits. *)
Definition radix_literal (s : string) : option Z :=
  match s with
  | String c (String p ds) =>
      if Ascii.eqb c "0"
      then if Ascii.eqb p "x" || Ascii.eqb p "X" then digits 16 ds
           else if Ascii.eqb p "o" || Ascii.eqb p "O" then digits 8 ds
           else if Ascii.eqb p "b" || Ascii.eqb p "B" then digits 2 ds
           else None
      else None
  | _ => None
  end.

(** ExponentPart, or nothing, up to the end of the literal. *)
Definition exponent_part (s : string) : option Z :=
  match s with
  | EmptyString => Some 0
  | String c rest =>
      if Ascii.eqb c "e" || Ascii.eqb c "E"
      then let (negative, ds) := signed rest in
           match digits 10 ds with
           | Some n => Some (if negative then - n else n)
           | None => None
           end
      else None
  end.

(** StrDecimalLiteral: a sign, then [Infinity] or digits with an optional
    fraction and an optional exponent; one digit at least. *)
Definition decimal_literal (s : string) : option quantity :=
  let (negative, body) := signed s in
  if String.eqb body "Infinity" then Some (Infinite negative)
  else
    let (whole, after) := leading_digits body in
    let (fraction, rest) :=
      match after with
      | String c after_point =>
          if Ascii.eqb c "." then leading_digits after_point
          else (EmptyString, after)
      | EmptyString => (EmptyString, EmptyString)
      end in
    match digits 10 (whole ++ fraction), exponent_part rest with
    | Some m, Some e =>
        Some (Finite (if negative then - m else m)
                     (e - Z.of_nat (String.length fraction)))
    | _, _ => None
    end.

(** StrNumericLiteral. *)
Definition numeric_literal (s : string) : option quantity :=
  match radix_literal s with
  | Some z => Some (Finite z 0)
  | None => decimal_literal s
  end.

(** The literals of the integers as [Number::toString] writes them, and
    with a [+]. *)
Definition integer_literal (s : string) : option Z :=
  match s with
  | EmptyString => None
  | String c ds =>
      if Ascii.eqb c "+"
      then option_map Z.of_uint (NilZero.uint_of_string ds)
      else option_map Z.of_int (NilZero.int_of_string s)
  end.

(** A quantity is an integer, or has a text that is not one. *)
Inductive shape : Type :=
| Whole (z : Z)
| Written (text : string).

(** [m * 10 ^ e] without the zeros that end [m], as far as [e < 0]. *)
Fixpoint without_zeros (n : nat) (m e : Z) : Z * Z :=
  match n with
  | O => (m, e)
  | S n' => if (e <? 0) && (m mod 10 =? 0)
            then without_zeros n' (m / 10) (e + 1)
            else (m, e)
  end.

(** [n] zeros. *)
Fixpoint zeros (n : nat) : string :=
  match n with
  | O => EmptyString
  | S n' => String "0" (zeros n')
  end.

(** The decimal digits of [m], for [0 <= m]. *)
Definition decimal_digits (m : Z) : string :=
  NilZero.string_of_int (Z.to_int m).

(** Number::toString of [m * 10 ^ e], for [0 < m] that does not end in a
    zero and [e < 0]: [k] digits, the point after the first [n]. *)
Definition fraction_to_string (m e : Z) : string :=
  let ds := decimal_digits m in
  let k := Z.of_nat (String.length ds) in
  let n := k + e in
  if (0 <? n) && (n <=? 21)
  then substring 0 (Z.to_nat n) ds ++ "."
       ++ substring (Z.to_nat n) (Z.to_nat (k - n)) ds
  else if (-6 <? n) && (n <=? 0)
  then "0." ++ zeros (Z.to_nat (- n)) ++ ds
  else substring 0 1 ds
       ++ (if k =? 1 then EmptyString
           else "." ++ substring 1 (Z.to_nat (k - 1)) ds)
       ++ "e" ++ (if n - 1 <? 0 then "-" else "+")
       ++ decimal_digits (Z.abs (n - 1)).

(** The range of the doubles: [m * 10 ^ e], with [0 < m], rounds to an
    infinity from [2 ^ 1024 - 2 ^ 970] on, and to zero up to
    [2 ^ -1075]. *)
Definition overflows (m e : Z) : bool :=
  if 0 <=? e then 2 ^ 1024 - 2 ^ 970 <=? m * 10 ^ e
  else (2 ^ 1024 - 2 ^ 970) * 10 ^ (- e) <=? m.

(** [m * 10 ^ e] rounds to zero. *)
Definition underflows (m e : Z) : bool :=
  (e <? 0) && (m * 2 ^ 1075 <=? 10 ^ (- e)).

(** Number::toString of the infinities. *)
Definition infinity (negative : bool) : string :=
  if negative then "-Infinity" else "Infinity".

Definition shape_of (q : quantity) : shape :=
  match q with
  | Infinite negative => Written (infinity negative)
  | Finite m e =>
      if m =? 0 then Whole 0
      else if overflows (Z.abs m) e then Written (infinity (m <? 0))
      else if underflows (Z.abs m) e then Whole 0
      else let (m', e') := without_zeros (Z.to_nat (- e)) (Z.abs m) e in
           if 0 <=? e' then Whole (Z.sgn m * m' * 10 ^ e')
           else Written ((if m <? 0 then "-" else EmptyString)
                         ++ fraction_to_string m' e')
  end.

(** The texts [Number::toString] writes for the numbers that are neither
    integers nor [NaN]: read as a literal, they denote what is written
    like them. *)
Definition is_written (text : string) : bool :=
  String.eqb (trim text) text && negb (occurs "|" text)
  && match integer_literal text, numeric_literal text with
     | None, Some q => match shape_of q with
                       | Written t => String.eqb t text
                       | Whole _ => false
                       end
     | _, _ => false
     end.

(** Numbers.  [Num z] is the integer [z], [NaN] is not a number, and
    [Lit text] is the fraction or the infinity that [Number::toString]
    writes as [text].  Values are exact, and an integer is written with
    all its digits: the model agrees with double arithmetic where that is
    exact (the safe integers, and the decimals of up to 15 digits in the
    range of the doubles). *)
Inductive number : Type :=
| Num (z : Z)
| NaN
| Lit (text : string) (written : is_written text = true).

(** The number that is written as [text], for such a text. *)
Definition of_text (text : string) : number :=
  (if is_written text as b return is_written text = b -> number
   then fun written => Lit text written
   else fun _ => NaN) eq_refl.

(** The number of a quantity. *)
Definition of_quantity (q : quantity) : number :=
  match shape_of q with
  | Whole z => Num z
  | Written text => of_text text
  end.

(** The quantity of a number; [NaN] has none. *)
Definition quantity_of (n : number) : option quantity :=
  match n with
  | Num z => Some (Finite z 0)
  | NaN => None
  | Lit text _ => numeric_literal text
  end.

(** [a === b] on numbers: [NaN] equals nothing. *)
Definition number_strict_eq (a b : number) : bool :=
  match a, b with
  | Num x, Num y => Z.eqb x y
  | Lit s _, Lit t _ => String.eqb s t
  | _, _ => false
  end.

Definition number_strict_neq (a b : number) : bool :=
  negb (number_strict_eq a b).

(** The sum of two quantities; the two infinities of opposite signs have
    none. *)
Definition sum (p q : quantity) : option quantity :=
  match p, q with
  | Finite m e, Finite m' e' =>
      let low := Z.min e e' in
      Some (Finite (m * 10 ^ (e - low) + m' * 10 ^ (e' - low)) low)
  | Infinite s, Finite _ _ | Finite _ _, Infinite s => Some (Infinite s)
  | Infinite s, Infinite s' =>
      if Bool.eqb s s' then Some (Infinite s) else None
  end.

(** [a + b] on numbers. *)
Definition add (a b : number) : number :=
  match a, b with
  | Num x, Num y => Num (x + y)
  | _, _ =>
      match quantity_of a, quantity_of b with
      | Some p, Some q => match sum p q with
                          | Some r => of_quantity r
                          | None => NaN
                          end
      | _, _ => NaN
      end
  end.

(** StringToNumber: surrounding white space is dropped, the empty string
    is [0], a StrNumericLiteral is its value, anything else is [NaN]. *)
Definition string_to_number (s : string) : number :=
  match trim s with
  | EmptyString => Num 0
  | literal =>
      match integer_literal literal with
      | Some z => Num z
      | None => match numeric_literal literal with
                | Some q => of_quantity q
                | None => NaN
                end
      end
  end.

(** [v * 1]: ToNumber of [v]; [undefined] gives [NaN]. *)
Definition times_one (v : value) : number :=
  match v with
  | Undefined => NaN
  | Str s => string_to_number s
  end.

(** Number::toString, as a template literal applies it. *)
Definition number_to_string (n : number) : string :=
  match n with
  | Num z => NilZero.string_of_int (Z.to_int z)
  | NaN => "NaN"
  | Lit text _ => text
  end.

End JS.

(* ===================================================================== *)
(** * Exceptions and completions *)
(* ===================================================================== *)

(** What a call throws: the two error classes of the source, a plain
    [Error], the engine's [TypeError] on a property read of [undefined],
    and, from the caller's mapping or from the query builder, an error of
    any other class. *)
Inductive exception : Type :=
| InvalidCursorError
| InvalidCursorTypeError (expectedType : string) (actualType : JS.value)
| Error (message : string)
| TypeError
| Foreign (name message : string).

Inductive completion (A : Type) : Type :=
| Return (a : A)
| Throw (e : exception).

Arguments Return {A} a.
Arguments Throw {A} e.

Definition bind {A B : Type} (c : completion A) (k : A -> completion B)
  : completion B :=
  match c with
  | Return a => k a
  | Throw e => Throw e
  end.

Notation "x <- c ;; k" := (bind c (fun x => k))
  (at level 61, c at next level, right associativity).

(* ===================================================================== *)
(** * The opaque-id codec (package [opaqueid]) *)
(* ===================================================================== *)

(** [import { encode, decode } from 'opaqueid']: the two functions the
    source imports.  The package is not part of the repository; the
    development is parametric in it. *)
Class OpaqueId : Type := {
  encode : string -> string;
  decode : string -> string
}.

(** The one law of the package the properties below rely on. *)
Definition lawful (codec : OpaqueId) : Prop :=
  forall s : string, decode (encode s) = s.

(** An instance to run the development on: two hexadecimal digits per
    character. *)
Module Hex.

Definition digit (n : nat) : ascii :=
  match n with
  | 0%nat => "0" | 1%nat => "1" | 2%nat => "2" | 3%nat => "3"
  | 4%nat => "4" | 5%nat => "5" | 6%nat => "6" | 7%nat => "7"
  | 8%nat => "8" | 9%nat => "9" | 10%nat => "a" | 11%nat => "b"
  | 12%nat => "c" | 13%nat => "d" | 14%nat => "e" | _ => "f"
  end%char.

Definition digit_value (c : ascii) : nat :=
  let n := nat_of_ascii c in
  if (andb (48 <=? n) (n <=? 57))%nat then (n - 48)%nat
  else if (andb (97 <=? n) (n <=? 102))%nat then (n - 87)%nat
  else 0%nat.

Fixpoint to_hex (s : string) : string :=
  match s with
  | EmptyString => EmptyString
  | String c rest =>
      let n := nat_of_ascii c in
      String (digit (n / 16)) (String (digit (n mod 16)) (to_hex rest))
  end.

Fixpoint of_hex (s : string) : string :=
  match s with
  | String hi (String lo rest) =>
      String (ascii_of_nat (16 * digit_value hi + digit_value lo))
             (of_hex rest)
  | _ => EmptyString
  end.

Definition codec : OpaqueId := {| encode := to_hex; decode := of_hex |}.

End Hex.

(* ===================================================================== *)
(** * The cursor codec (index.ts, lines 64-110) *)
(* ===================================================================== *)

(** [interface Cursor].  The fields are read out of an [any[]], so [id] and
    [type] are values that may be [undefined] and [index] may be [NaN]. *)
Record Cursor : Type := {
  cursor_id : JS.value;
  cursor_type : JS.value;
  cursor_index : JS.number
}.

Section CursorCodec.

Context {codec : OpaqueId}.

(** [encodeCursor]: [encode(`C|${type}|${id}|${index}`)]. *)
Definition encodeCursor (id type : string) (index : JS.number) : string :=
  encode ("C|" ++ type ++ "|" ++ id ++ "|" ++ JS.number_to_string index).

(** [decodeCursor]. *)
Definition decodeCursor (cursor type : string) : completion Cursor :=
  let split := JS.split "|" (decode cursor) in
  if JS.strict_neq (JS.element split 0) (JS.Str "C")
  then Throw InvalidCursorError
  else if JS.strict_neq (JS.element split 1) (JS.Str type)
  then Throw (InvalidCursorTypeError type (JS.element split 1))
  else Return {| cursor_id := JS.element split 2;
                 cursor_type := JS.element split 1;
                 cursor_index := JS.times_one (JS.element split 3) |}.

End CursorCodec.

(* ===================================================================== *)
(** * The paginator (index.ts, lines 112-305) *)
(* ===================================================================== *)

(** [enum OrderDirection]. *)
Inductive OrderDirection : Type := ASC | DESC.

(** [interface PageInfo]; [None] is the [null] the source stores. *)
Record PageInfo : Type := {
  endCursor : option string;
  startCursor : option string;
  hasNextPage : bool;
  hasPreviousPage : bool
}.

Section Paginator.

Context {codec : OpaqueId}.

(** The entity type, with its [id] property, and the type of the
    user-facing order fields. *)
Context {Entity OrderField : Type}.
Variable entity_id : Entity -> string.

(** [interface Order]. *)
Record Order : Type := {
  direction : OrderDirection;
  field : OrderField
}.

(** [interface FindOptions]; [orderBy?] and [after?] are optional. *)
Record FindOptions : Type := {
  first : Z;
  orderBy : option Order;
  after : option string
}.

(** [interface Edge<T>] and [interface Connection<T>]. *)
Record Edge : Type := {
  node : Entity;
  cursor : string
}.

Record Connection : Type := {
  totalCount : Z;
  pageInfo : PageInfo;
  edges : list Edge
}.

(** The part of TypeORM's [SelectQueryBuilder] the source drives: a
    builder that accumulates an order, an offset and a limit over a
    data source.  The data source answers a count and a window of rows for
    the clauses it is given, or throws. *)
Record DataSource : Type := {
  count_rows : option (string * OrderDirection) ->
               option JS.number -> option Z -> completion Z;
  select_rows : option (string * OrderDirection) ->
                option JS.number -> option Z -> completion (list Entity)
}.

Record SelectQueryBuilder : Type := {
  from : DataSource;
  ordered : option (string * OrderDirection);
  offset : option JS.number;
  limit : option Z
}.

Definition query_orderBy (q : SelectQueryBuilder) (key : string)
           (d : OrderDirection) : SelectQueryBuilder :=
  {| from := from q; ordered := Some (key, d);
     offset := offset q; limit := limit q |}.

Definition query_skip (q : SelectQueryBuilder) (n : JS.number)
  : SelectQueryBuilder :=
  {| from := from q; ordered := ordered q;
     offset := Some n; limit := limit q |}.

Definition query_take (q : SelectQueryBuilder) (n : Z)
  : SelectQueryBuilder :=
  {| from := from q; ordered := ordered q;
     offset := offset q; limit := Some n |}.

Definition getCount (q : SelectQueryBuilder) : completion Z :=
  count_rows (from q) (ordered q) (offset q) (limit q).

Definition getMany (q : SelectQueryBuilder) : completion (list Entity) :=
  select_rows (from q) (ordered q) (offset q) (limit q).

(** [Repository<Entity>], through [createQueryBuilder(alias)]. *)
Record Repository : Type := {
  createQueryBuilder : string -> SelectQueryBuilder
}.

(** [interface PaginateOptions]. *)
Record PaginateOptions : Type := {
  type : string;
  alias : string;
  validateCursor : option bool;
  orderFieldToKey : OrderField -> completion string;
  queryBuilder : option SelectQueryBuilder;
  repository : option Repository
}.

(** The test [findOptions.after ? _ : _] (lines 234, 243, 283): an absent
    [after] and the empty string are both falsy. *)
Definition after_truthy (findOptions : FindOptions) : bool :=
  match after findOptions with
  | Some a => JS.truthy_string a
  | None => false
  end.

(** Lines 232-239: [decodedCursor], left undefined without a cursor. *)
Definition decode_after (findOptions : FindOptions)
           (options : PaginateOptions) : completion (option Cursor) :=
  match after findOptions with
  | Some a =>
      if JS.truthy_string a
      then c <- decodeCursor a (type options) ;; Return (Some c)
      else Return None
  | None => Return None
  end.

(** Lines 231 and 238: [skip]. *)
Definition skip_of (decodedCursor : option Cursor) : JS.number :=
  match decodedCursor with
  | Some c => cursor_index c
  | None => JS.Num 0
  end.

(** Lines 243-245: [dbTake]. *)
Definition dbTake_of (findOptions : FindOptions) : Z :=
  if after_truthy findOptions
  then first findOptions + 2
  else first findOptions + 1.

(** Lines 247-257: the query to run. *)
Definition get_query (options : PaginateOptions)
  : completion SelectQueryBuilder :=
  match queryBuilder options with
  | Some q => Return q
  | None =>
      match repository options with
      | Some r => Return (createQueryBuilder r (alias options))
      | None =>
          Throw (Error
            "A QueryBuilder or Repository object must be provided to paginate.")
      end
  end.

(** Lines 260-266: [findOptions.orderBy.field] is read with no test of
    [orderBy], and handed to the caller's mapping, which returns the name
    of the field or throws. *)
Definition order_query (findOptions : FindOptions)
           (options : PaginateOptions) (query : SelectQueryBuilder)
  : completion SelectQueryBuilder :=
  match orderBy findOptions with
  | None => Throw TypeError
  | Some o =>
      field <- orderFieldToKey options (field o) ;;
      let key := alias options ++ "." ++ field in
      Return (query_orderBy query key (direction o))
  end.

(** Lines 275-278: the validation of the cursor; [results[0].id] is read
    with no test of [results[0]]. *)
Definition check_cursor (decodedCursor : option Cursor)
           (options : PaginateOptions) (results : list Entity)
  : completion unit :=
  match decodedCursor with
  | Some c =>
      if JS.truthy_flag (validateCursor options)
      then match JS.at_index results 0 with
           | None => Throw TypeError
           | Some r0 =>
               if JS.strict_neq (cursor_id c) (JS.Str (entity_id r0))
               then Throw InvalidCursorError
               else Return tt
           end
      else Return tt
  | None => Return tt
  end.

(** The body of the [for] loop of lines 282-291, run [n] times from
    position [i]. *)
Fixpoint edges_loop (results : list Entity) (type : string)
         (skip : JS.number) (n : nat) (i : Z) (edges : list Edge)
  : completion (list Edge) :=
  match n with
  | O => Return edges
  | S n' =>
      match JS.at_index results i with
      | None => Throw TypeError
      | Some r =>
          edges_loop results type skip n' (i + 1)
            (edges ++
             [{| node := r;
                 cursor := encodeCursor (entity_id r) type
                             (JS.add (JS.Num i) skip) |}])
      end
  end.

(** The first position of the loop and its bound (lines 283-284). *)
Definition loop_start (findOptions : FindOptions) : Z :=
  if after_truthy findOptions then 1 else 0.

Definition loop_bound (results : list Entity) (dbTake : Z) : Z :=
  let length := Z.of_nat (List.length results) in
  if length <? dbTake then length else length - 1.

(** Lines 280-291: a loop of unit stride from [loop_start] to
    [loop_bound] runs [bound - start] times, or not at all. *)
Definition build_edges (findOptions : FindOptions)
           (options : PaginateOptions) (results : list Entity)
           (dbTake : Z) (skip : JS.number) : completion (list Edge) :=
  let start := loop_start findOptions in
  let bound := loop_bound results dbTake in
  edges_loop results (type options) skip (Z.to_nat (bound - start))
    start [].

(** Lines 293-298. *)
Definition page_info (edges : list Edge) (results : list Entity)
           (dbTake : Z) (skip : JS.number) : PageInfo :=
  {| startCursor :=
       match JS.at_index edges 0 with
       | Some e => Some (cursor e)
       | None => None
       end;
     endCursor :=
       match JS.at_index edges (Z.of_nat (List.length edges) - 1) with
       | Some e => Some (cursor e)
       | None => None
       end;
     hasNextPage := Z.of_nat (List.length results) =? dbTake;
     hasPreviousPage := JS.number_strict_neq skip (JS.Num 0) |}.

(** [paginate]. *)
Definition paginate (findOptions : FindOptions)
           (options : PaginateOptions) : completion Connection :=
  decodedCursor <- decode_after findOptions options ;;
  let skip := skip_of decodedCursor in
  let dbTake := dbTake_of findOptions in
  query <- get_query options ;;
  query <- order_query findOptions options query ;;
  totalCount <- getCount query ;;
  results <- getMany (query_take (query_skip query skip) dbTake) ;;
  _ <- check_cursor decodedCursor options results ;;
  edges <- build_edges findOptions options results dbTake skip ;;
  let pageInfo := page_info edges results dbTake skip in
  Return {| pageInfo := pageInfo; edges := edges;
            totalCount := totalCount |}.

(** The state of a call after line 273, when it gets that far: the decoded
    cursor, [skip], [dbTake], [totalCount] and [results]. *)
Record Window : Type := {
  w_cursor : option Cursor;
  w_skip : JS.number;
  w_dbTake : Z;
  w_totalCount : Z;
  w_results : list Entity
}.

Definition fetch_window (findOptions : FindOptions)
           (options : PaginateOptions) : completion Window :=
  decodedCursor <- decode_after findOptions options ;;
  let skip := skip_of decodedCursor in
  let dbTake := dbTake_of findOptions in
  query <- get_query options ;;
  query <- order_query findOptions options query ;;
  totalCount <- getCount query ;;
  results <- getMany (query_take (query_skip query skip) dbTake) ;;
  Return {| w_cursor := decodedCursor; w_skip := skip; w_dbTake := dbTake;
            w_totalCount := totalCount; w_results := results |}.

(** What the specification says of the edges: the rows kept for the page,
    each with the cursor of its absolute position, [i] being the position
    of the first of them in [results]. *)
Fixpoint number_rows (type : string) (skip : JS.number) (i : Z)
         (rows : list Entity) : list Edge :=
  match rows with
  | [] => []
  | r :: rest =>
      {| node := r;
         cursor := encodeCursor (entity_id r) type (JS.add (JS.Num i) skip) |}
      :: number_rows type skip (i + 1) rest
  end.

(** The rows of [results] the specification keeps: all but the first when
    a cursor was supplied, and all but the last when the window is full. *)
Definition retained_rows (supplied : bool) (dbTake : Z)
           (results : list Entity) : list Entity :=
  let upto :=
    if Z.of_nat (List.length results) =? dbTake
    then removelast results else results in
  if supplied then tl upto else upto.

End Paginator.


(* ===================================================================== *)
(** * A table of users to run the paginator on *)
(* ===================================================================== *)

Module Sample.

Record User : Type := { id : string; name : string }.

Inductive UserOrderField : Type := NAME | EMAIL.

(** A data source over a list of rows, already in the requested order,
    that honours the offset and the limit of the query. *)
Definition window (rows : list User) (offset : option JS.number)
           (limit : option Z) : list User :=
  let after_offset :=
    match offset with
    | Some (JS.Num n) => skipn (Z.to_nat n) rows
    | _ => rows
    end in
  match limit with
  | Some n => firstn (Z.to_nat n) after_offset
  | None => after_offset
  end.

Definition table (rows : list User) : DataSource :=
  {| count_rows := fun _ _ _ => Return (Z.of_nat (List.length rows));
     select_rows := fun _ offset limit => Return (window rows offset limit) |}.

Definition users_of (rows : list User) : Repository :=
  {| createQueryBuilder := fun _ =>
       {| from := table rows; ordered := None;
          offset := None; limit := None |} |}.

Definition field_key (f : UserOrderField) : string :=
  match f with
  | NAME => "name"
  | EMAIL => "email"
  end.

(** The options of the README, over the rows [rows]. *)
Definition options (rows : list User) : PaginateOptions :=
  {| type := "User"; alias := "user"; validateCursor := Some true;
     orderFieldToKey := fun f => Return (field_key f);
     queryBuilder := None; repository := Some (users_of rows) |}.

Definition by_name : option (@Order UserOrderField) :=
  Some {| direction := ASC; field := NAME |}.

Definition user (k : string) : User := {| id := "u" ++ k; name := "n" ++ k |}.

Definition five : list User :=
  [user "0"; user "1"; user "2"; user "3"; user "4"].

Definition ten : list User :=
  five ++ [user "5"; user "6"; user "7"; user "8"; user "9"].


(** The same options with neither a query builder nor a repository. *)
Definition no_source : @PaginateOptions User UserOrderField :=
  {| type := "User"; alias := "user"; validateCursor := Some true;
     orderFieldToKey := fun f => Return (field_key f);
     queryBuilder := None; repository := None |}.

Definition request (n : Z) (cursor : option string)
  : @FindOptions UserOrderField :=
  {| first := n; orderBy := by_name; after := cursor |}.

Definition unordered (n : Z) (cursor : option string)
  : @FindOptions UserOrderField :=
  {| first := n; orderBy := None; after := cursor |}.

(** The cursor of the row [id] at position [i], through the sample codec. *)
Definition cursor_at (id : string) (i : Z) : string :=
  encodeCursor (codec := Hex.codec) id "User" (JS.Num i).

(** The options of the README without the validation of the cursor. *)
Definition lenient (rows : list User) : PaginateOptions :=
  {| type := "User"; alias := "user"; validateCursor := None;
     orderFieldToKey := fun f => Return (field_key f);
     queryBuilder := None; repository := Some (users_of rows) |}.

(** A data source for which a limit of [0] is no limit, as the query
    builder of TypeORM answers [take(0)], and the options of the README
    over it. *)
Definition unbounded_at_zero (rows : list User) : DataSource :=
  {| count_rows := fun _ _ _ => Return (Z.of_nat (List.length rows));
     select_rows := fun _ offset limit =>
       match limit with
       | Some 0 => Return (window rows offset None)
       | _ => Return (window rows offset limit)
       end |}.

Definition unbounded_options (rows : list User) : PaginateOptions :=
  {| type := "User"; alias := "user"; validateCursor := Some true;
     orderFieldToKey := fun f => Return (field_key f);
     queryBuilder :=
       Some {| from := unbounded_at_zero rows; ordered := None;
               offset := None; limit := None |};
     repository := None |}.

Definition run (fo : @FindOptions UserOrderField)
           (opts : @PaginateOptions User UserOrderField)
  : completion (@Connection User) :=
  paginate (codec := Hex.codec) id fo opts.

End Sample.

(* ===================================================================== *)
(** * The error classes (index.ts, lines 22-62) *)
(* ===================================================================== *)

(** A value inside a template literal: [`${v}`]. *)
Definition template (v : JS.value) : string :=
  match v with
  | JS.Undefined => "undefined"
  | JS.Str s => s
  end.

(** The [name] the constructors of the two classes set; [Error] and
    [TypeError] keep the name of their class. *)
Definition error_name (e : exception) : string :=
  match e with
  | InvalidCursorError => "Invalid Cursor Error"
  | InvalidCursorTypeError _ _ => "Invalid Cursor Type Error"
  | Error _ => "Error"
  | TypeError => "TypeError"
  | Foreign name _ => name
  end.

(** The [message] the constructors set.  The text of the engine's
    [TypeError] is not the source's: [None]. *)
Definition error_message (e : exception) : option string :=
  match e with
  | InvalidCursorError => Some "Invalid cursor"
  | InvalidCursorTypeError expectedType actualType =>
      Some ("Invalid cursor, expected type " ++ expectedType
            ++ ", but got type " ++ template actualType)
  | Error message => Some message
  | TypeError => None
  | Foreign _ message => Some message
  end.

(* ===================================================================== *)
(** * A data source that does not change between calls *)
(* ===================================================================== *)

(** The contract of a data source that, asked in the order [order], holds
    the rows [rows] in that order: it counts them, whatever the offset and
    the limit, and answers an offset [k] and a limit [n > 0] with the [n]
    rows from position [k]. *)
Definition serves {Entity : Type} (source : @DataSource Entity)
           (order : string * OrderDirection) (rows : list Entity) : Prop :=
  (forall (offset : option JS.number) (limit : option Z),
     count_rows source (Some order) offset limit
     = Return (Z.of_nat (List.length rows))) /\
  forall (k n : Z),
    0 <= k -> 0 < n ->
    select_rows source (Some order) (Some (JS.Num k)) (Some n)
    = Return (firstn (Z.to_nat n) (skipn (Z.to_nat k) rows)).

(* ===================================================================== *)
(** * The opaque layer on text that is not ASCII *)
(* ===================================================================== *)

(** Strings stand for their UTF-8 bytes.  [bytes_as_text s] is the text
    that has one character per byte of [s]: a byte below 128 is itself, a
    byte [b] from 128 on is the character of code [b], two bytes in
    UTF-8. *)
Fixpoint bytes_as_text (s : string) : string :=
  match s with
  | EmptyString => EmptyString
  | String c rest =>
      let b := nat_of_ascii c in
      if (b <? 128)%nat then String c (bytes_as_text rest)
      else String (ascii_of_nat (192 + b / 64))
             (String (ascii_of_nat (128 + b mod 64)) (bytes_as_text rest))
  end.

(** The ASCII characters. *)
Definition is_ascii (c : ascii) : bool := (nat_of_ascii c <? 128)%nat.

(** A codec that writes the UTF-8 bytes of the text and reads them back
    one character per byte; on ASCII text it gives the text back. *)
Definition reads_bytes (codec : OpaqueId) : Prop :=
  forall s : string, decode (encode s) = bytes_as_text s.

Module Bytewise.

Definition codec : OpaqueId :=
  {| encode := Hex.to_hex;
     decode := fun s => bytes_as_text (Hex.of_hex s) |}.

End Bytewise.

(* ===================================================================== *)
(** * Facts on the JavaScript fragment *)
(* ===================================================================== *)

Ltac each_ascii c :=
  destruct c as [[|] [|] [|] [|] [|] [|] [|] [|]].

Lemma strict_neq_true (a b : JS.value) :
  JS.strict_neq a b = true <-> a <> b.
Proof.
  unfold JS.strict_neq.
  destruct a as [|x], b as [|y]; cbn; try (split; congruence).
  destruct (String.eqb_spec x y) as [->|]; cbn; split; congruence.
Qed.

Lemma strict_neq_false (a b : JS.value) :
  JS.strict_neq a b = false <-> a = b.
Proof.
  unfold JS.strict_neq.
  destruct a as [|x], b as [|y]; cbn; try (split; congruence).
  destruct (String.eqb_spec x y) as [->|]; cbn; split; congruence.
Qed.

Lemma split_without_separator (sep : ascii) (s : string) :
  JS.occurs sep s = false -> JS.split sep s = [s].
Proof.
  induction s as [|c rest IH]; cbn; [reflexivity|].
  intros H. apply orb_false_elim in H as [Hc Hrest].
  rewrite Hc, (IH Hrest). reflexivity.
Qed.

Lemma split_field (sep : ascii) (a b : string) :
  JS.occurs sep a = false ->
  JS.split sep (a ++ String sep b) = a :: JS.split sep b.
Proof.
  induction a as [|c rest IH]; cbn.
  - intros _. rewrite Ascii.eqb_refl. reflexivity.
  - intros H. apply orb_false_elim in H as [Hc Hrest].
    rewrite Hc, (IH Hrest). reflexivity.
Qed.

Lemma split_never_empty (sep : ascii) (s : string) : JS.split sep s <> [].
Proof.
  induction s as [|c rest IH]; cbn; [discriminate|].
  destruct (Ascii.eqb c sep); [discriminate|].
  destruct (JS.split sep rest); discriminate.
Qed.

Lemma split_head (sep c : ascii) (s : string) :
  Ascii.eqb c sep = false ->
  exists field fields, JS.split sep (String c s) = String c field :: fields.
Proof.
  intros Hc. cbn. rewrite Hc.
  destruct (JS.split sep s) as [|f fs]; eauto.
Qed.

Lemma every_occurs (p : ascii -> bool) (c : ascii) (s : string) :
  JS.every p s = true -> p c = false -> JS.occurs c s = false.
Proof.
  intros Hs Hc. induction s as [|d rest IH]; cbn in *; [reflexivity|].
  apply andb_prop in Hs as [Hd Hrest]. rewrite (IH Hrest), orb_false_r.
  destruct (Ascii.eqb_spec d c) as [->|]; congruence.
Qed.

Lemma every_decimal_uint (u : Decimal.uint) :
  JS.every JS.is_decimal_char (NilEmpty.string_of_uint u) = true.
Proof. induction u; cbn; auto. Qed.

Lemma every_decimal_number (z : Z) :
  JS.every JS.is_decimal_char (JS.number_to_string (JS.Num z)) = true.
Proof.
  unfold JS.number_to_string, NilZero.string_of_int, NilZero.string_of_uint.
  destruct z as [|p|p]; cbn; [reflexivity| |];
    pose proof (every_decimal_uint (Pos.to_uint p)) as H;
    destruct (Pos.to_uint p); cbn in *; auto.
Qed.

Lemma decimal_char_not_space (c : ascii) (rest : string) :
  JS.is_decimal_char c = true -> JS.drop_white_space (String c rest) = None.
Proof. each_ascii c; vm_compute; congruence. Qed.

Lemma trim_start_decimal (s : string) :
  JS.every JS.is_decimal_char s = true -> JS.trim_start s = s.
Proof.
  destruct s as [|c rest]; [reflexivity|].
  cbn [JS.every]. intros H. apply andb_prop in H as [Hc _].
  unfold JS.trim_start. cbn [String.length JS.trim_start_upto].
  rewrite (decimal_char_not_space c rest Hc). reflexivity.
Qed.

Lemma trim_end_decimal (s : string) :
  JS.every JS.is_decimal_char s = true -> JS.trim_end s = s.
Proof.
  induction s as [|c rest IH]; [reflexivity|].
  cbn [JS.every JS.trim_end]. intros H. apply andb_prop in H as [Hc Hrest].
  unfold JS.all_white_space. cbn [String.length JS.all_white_space_upto].
  rewrite (decimal_char_not_space c rest Hc), (IH Hrest). reflexivity.
Qed.

Lemma trim_decimal (s : string) :
  JS.every JS.is_decimal_char s = true -> JS.trim s = s.
Proof.
  intros H. unfold JS.trim.
  rewrite (trim_start_decimal s H). apply trim_end_decimal, H.
Qed.

(** Printing an integer and reading it back gives the integer. *)
Lemma string_to_number_to_string (z : Z) :
  JS.string_to_number (JS.number_to_string (JS.Num z)) = JS.Num z.
Proof.
  pose proof (every_decimal_number z) as Hdec.
  unfold JS.string_to_number. rewrite (trim_decimal _ Hdec).
  assert (Hread : NilZero.int_of_string (JS.number_to_string (JS.Num z))
                  = Some (Z.to_int z)).
  { cbn [JS.number_to_string]. apply NilZero.isi.
    - destruct z; cbn; try discriminate.
      intros [= H]. exact (Unsigned.to_uint_nonnil _ H).
    - destruct z; cbn; try discriminate.
      intros [= H]. exact (Unsigned.to_uint_nonnil _ H). }
  destruct (JS.number_to_string (JS.Num z)) as [|c rest] eqn:E.
  - discriminate Hread.
  - cbn in Hdec. apply andb_prop in Hdec as [Hc _].
    assert (Hplus : Ascii.eqb c "+" = false).
    { destruct (Ascii.eqb_spec c "+") as [->|]; [discriminate Hc|reflexivity]. }
    unfold JS.integer_literal. rewrite Hplus, Hread. cbn [option_map].
    rewrite DecimalZ.of_to. reflexivity.
Qed.

(** What the text of a fraction or of an infinity is known to be. *)
Lemma is_written_inv (text : string) :
  JS.is_written text = true ->
  JS.trim text = text /\ JS.occurs "|" text = false
  /\ JS.integer_literal text = None
  /\ exists q, JS.numeric_literal text = Some q
               /\ JS.shape_of q = JS.Written text.
Proof.
  unfold JS.is_written. intros H.
  apply andb_prop in H as [H Hlit]. apply andb_prop in H as [Htrim Hsep].
  apply String.eqb_eq in Htrim. apply negb_true_iff in Hsep.
  destruct (JS.integer_literal text); [discriminate Hlit|].
  destruct (JS.numeric_literal text) as [q|]; [|discriminate Hlit].
  destruct (JS.shape_of q) as [z|t] eqn:Hq; [discriminate Hlit|].
  apply String.eqb_eq in Hlit. subst t. eauto 6.
Qed.

Lemma of_text_written (text : string) (written : JS.is_written text = true) :
  JS.of_text text = JS.Lit text written.
Proof.
  unfold JS.of_text.
  generalize (eq_refl (JS.is_written text)).
  generalize (JS.is_written text) at 2 3.
  intros [|] e; [|congruence].
  f_equal. apply Eqdep_dec.UIP_dec, Bool.bool_dec.
Qed.

(** Literals of each form, and what [split[3] * 1] makes of them. *)
Example string_to_number_reads_literals :
  List.map (fun s => JS.number_to_string (JS.string_to_number s))
           ["1e1"; "0x10"; "1.5"; "0.0"; " 12 "; ".5e-7"; "-Infinity";
            "1e400"; "0b12"; "1.5px"; ""]
  = ["10"; "16"; "1.5"; "0"; "12"; "5e-8"; "-Infinity";
     "Infinity"; "NaN"; "NaN"; "0"]
  /\ JS.string_to_number "1e1" = JS.Num 10
  /\ JS.string_to_number "0x10" = JS.Num 16
  /\ JS.string_to_number "0.0" = JS.Num 0
  /\ JS.string_to_number "1.5px" = JS.NaN
  /\ JS.number_to_string (JS.add (JS.Num 1) (JS.string_to_number "1.5"))
     = "2.5".
Proof. vm_compute. repeat split; reflexivity. Qed.

Lemma number_to_string_no_separator (n : JS.number) :
  JS.occurs "|" (JS.number_to_string n) = false.
Proof.
  destruct n as [z| |text written]; [|reflexivity|].
  - apply (every_occurs JS.is_decimal_char); [apply every_decimal_number|].
    reflexivity.
  - apply (is_written_inv text written).
Qed.

(** The sample codec obeys the law of the package. *)
Lemma hex_codec_lawful : lawful Hex.codec.
Proof.
  intros s. cbn. induction s as [|c rest IH]; [reflexivity|].
  cbn [Hex.to_hex Hex.of_hex]. rewrite IH. f_equal.
  each_ascii c; reflexivity.
Qed.

(* ===================================================================== *)
(** * The cursor codec *)
(* ===================================================================== *)

Section CursorCodecFacts.

Context {codec : OpaqueId}.

(** The payload [encodeCursor] builds splits back into its four fields
    when neither the type nor the id holds the separator. *)
Lemma payload_fields (id type : string) (index : JS.number) :
  JS.occurs "|" id = false ->
  JS.occurs "|" type = false ->
  JS.split "|" ("C|" ++ type ++ "|" ++ id ++ "|" ++ JS.number_to_string index)
  = ["C"; type; id; JS.number_to_string index].
Proof.
  intros Hid Htype.
  change ("C|" ++ type ++ "|" ++ id ++ "|" ++ JS.number_to_string index)
    with ("C" ++ String "|" (type ++ String "|"
            (id ++ String "|" (JS.number_to_string index)))).
  rewrite (split_field "|" "C") by reflexivity.
  rewrite (split_field "|" type) by exact Htype.
  rewrite (split_field "|" id) by exact Hid.
  rewrite split_without_separator by apply number_to_string_no_separator.
  reflexivity.
Qed.


Lemma decodeCursor_tagged (cursor type actual : string)
      (fields : list string) :
  JS.split "|" (decode cursor) = "C" :: actual :: fields ->
  decodeCursor cursor type =
    if String.eqb actual type
    then Return {| cursor_id := JS.element ("C" :: actual :: fields) 2;
                   cursor_type := JS.Str actual;
                   cursor_index :=
                     JS.times_one (JS.element ("C" :: actual :: fields) 3) |}
    else Throw (InvalidCursorTypeError type (JS.Str actual)).
Proof.
  intros Hsplit. unfold decodeCursor. rewrite Hsplit.
  cbn [JS.element nth_error]. unfold JS.strict_neq. cbn [JS.strict_eq].
  change (String.eqb "C" "C") with true. cbn [negb].
  destruct (String.eqb actual type); reflexivity.
Qed.

Lemma decodeCursor_encodeCursor (id type : string) (index : Z) :
  lawful codec ->
  JS.occurs "|" id = false ->
  JS.occurs "|" type = false ->
  decodeCursor (encodeCursor id type (JS.Num index)) type
  = Return {| cursor_id := JS.Str id; cursor_type := JS.Str type;
              cursor_index := JS.Num index |}.
Proof.
  intros Hlaw Hid Htype.
  rewrite (decodeCursor_tagged _ type type
             [id; JS.number_to_string (JS.Num index)]).
  - rewrite String.eqb_refl.
    cbn [JS.element nth_error JS.times_one].
    rewrite string_to_number_to_string. reflexivity.
  - unfold encodeCursor. rewrite Hlaw. apply payload_fields; assumption.
Qed.

(** X15.  Under a codec that gives every text back, for every id and type
    that do not hold the separator and every index [>= 0], decoding the
    encoded cursor against the same type returns exactly the id, the type
    and the index; and two such triples with the same encoding are the
    same triple. *)
Theorem cursor_round_trip (id type : string) (index : Z) :
  lawful codec ->
  JS.occurs "|" id = false ->
  JS.occurs "|" type = false ->
  0 <= index ->
  decodeCursor (encodeCursor id type (JS.Num index)) type
  = Return {| cursor_id := JS.Str id; cursor_type := JS.Str type;
              cursor_index := JS.Num index |}
  /\ forall (id' type' : string) (index' : Z),
       JS.occurs "|" id' = false ->
       JS.occurs "|" type' = false ->
       0 <= index' ->
       encodeCursor id type (JS.Num index)
       = encodeCursor id' type' (JS.Num index') ->
       id = id' /\ type = type' /\ index = index'.
Proof.
  intros Hlaw Hid Htype _. split.
  - apply decodeCursor_encodeCursor; assumption.
  - intros id' type' index' Hid' Htype' _ Hsame.
    apply (f_equal decode) in Hsame. unfold encodeCursor in Hsame.
    rewrite !Hlaw in Hsame. apply (f_equal (JS.split "|")) in Hsame.
    rewrite !payload_fields in Hsame by assumption.
    injection Hsame as Ht Hi Hn.
    change (JS.number_to_string (JS.Num index)
            = JS.number_to_string (JS.Num index')) in Hn.
    apply (f_equal JS.string_to_number) in Hn.
    rewrite !string_to_number_to_string in Hn.
    injection Hn as Hn. auto.
Qed.

(** C2 on the code.  Under a codec that reads the bytes it wrote one
    character per byte, an id that is not ASCII does not come back: the
    cursor of the id ["é"], which holds no separator, decodes to the id
    ["Ã©"], and a cursor encoded for the type ["Café"] is refused for that
    same type. *)
Theorem non_ascii_cursor_comes_back_changed :
  reads_bytes codec ->
  JS.occurs "|" "é" = false
  /\ decodeCursor (encodeCursor "é" "User" (JS.Num 0)) "User"
     = Return {| cursor_id := JS.Str "Ã©"; cursor_type := JS.Str "User";
                 cursor_index := JS.Num 0 |}
  /\ JS.Str "Ã©" <> JS.Str "é"
  /\ decodeCursor (encodeCursor "u1" "Café" (JS.Num 0)) "Café"
     = Throw (InvalidCursorTypeError "Café" (JS.Str "CafÃ©")).
Proof.
  intros Hread. unfold decodeCursor, encodeCursor. rewrite !Hread.
  repeat split; try (vm_compute; reflexivity). discriminate.
Qed.


Lemma first_field_without_tag (payload : string) :
  String.prefix "C" payload = false ->
  JS.element (JS.split "|" payload) 0 <> JS.Str "C".
Proof.
  destruct payload as [|c rest]; cbn; [discriminate|].
  destruct (Ascii.eqb_spec c "|") as [->|Hsep]; cbn; [discriminate|].
  destruct (ascii_dec "C" c) as [<-|Hc].
  - destruct rest; discriminate.
  - intros _. destruct (JS.split "|" rest); cbn; congruence.
Qed.

(** C4, as the code has it.  [decodeCursor] throws [InvalidCursorError]
    exactly when the first field of the decoded payload is not the tag [C],
    so whenever the payload does not start with [C].  A payload with the
    tag is never refused as malformed: when its second field is the
    expected type a [Cursor] is returned, whatever the number of fields
    and whatever the index field holds, and otherwise
    [InvalidCursorTypeError] is thrown. *)
Theorem decode_malformed_by_tag_only (cursor type : string) :
  let fields := JS.split "|" (decode cursor) in
  (decodeCursor cursor type = Throw InvalidCursorError
   <-> JS.element fields 0 <> JS.Str "C")
  /\ (String.prefix "C" (decode cursor) = false ->
      decodeCursor cursor type = Throw InvalidCursorError)
  /\ (JS.element fields 0 = JS.Str "C" ->
      JS.element fields 1 = JS.Str type ->
      decodeCursor cursor type
      = Return {| cursor_id := JS.element fields 2;
                  cursor_type := JS.Str type;
                  cursor_index := JS.times_one (JS.element fields 3) |})
  /\ (JS.element fields 0 = JS.Str "C" ->
      JS.element fields 1 <> JS.Str type ->
      decodeCursor cursor type
      = Throw (InvalidCursorTypeError type (JS.element fields 1))).
Proof.
  intros fields.
  assert (Htag : JS.element fields 0 <> JS.Str "C" ->
                 decodeCursor cursor type = Throw InvalidCursorError).
  { intros Hne. unfold decodeCursor. fold fields.
    apply strict_neq_true in Hne. rewrite Hne. reflexivity. }
  assert (Hok : JS.element fields 0 = JS.Str "C" ->
                decodeCursor cursor type =
                if JS.strict_neq (JS.element fields 1) (JS.Str type)
                then Throw (InvalidCursorTypeError type (JS.element fields 1))
                else Return {| cursor_id := JS.element fields 2;
                               cursor_type := JS.element fields 1;
                               cursor_index :=
                                 JS.times_one (JS.element fields 3) |}).
  { intros E. unfold decodeCursor. fold fields. rewrite E. reflexivity. }
  repeat split.
  - intros Hthrow Htagged. rewrite (Hok Htagged) in Hthrow.
    destruct (JS.strict_neq _ _); discriminate.
  - exact Htag.
  - intros Hprefix. apply Htag, first_field_without_tag, Hprefix.
  - intros H0 H1. rewrite (Hok H0).
    rewrite (proj2 (strict_neq_false _ _) H1), H1. reflexivity.
  - intros H0 H1. rewrite (Hok H0).
    rewrite (proj2 (strict_neq_true _ _) H1). reflexivity.
Qed.

(** Under any codec that obeys the law, payloads of three fields, with an
    index that is not a number, or with a negative index, decode to a
    [Cursor]. *)
Lemma lawful_codec_accepts_malformed :
  lawful codec ->
  decodeCursor (encode "C|User|u1") "User"
  = Return {| cursor_id := JS.Str "u1"; cursor_type := JS.Str "User";
              cursor_index := JS.NaN |}
  /\ decodeCursor (encode "C|User|u1|abc") "User"
     = Return {| cursor_id := JS.Str "u1"; cursor_type := JS.Str "User";
                 cursor_index := JS.NaN |}
  /\ decodeCursor (encode "C|User|u1|-3") "User"
     = Return {| cursor_id := JS.Str "u1"; cursor_type := JS.Str "User";
                 cursor_index := JS.Num (-3) |}.
Proof.
  intros Hlaw. unfold decodeCursor. rewrite !Hlaw.
  repeat split; vm_compute; reflexivity.
Qed.

End CursorCodecFacts.

(* ===================================================================== *)
(** * The paginator *)
(* ===================================================================== *)

Section PaginatorFacts.

#[local] Open Scope list_scope.

Context {codec : OpaqueId} {Entity OrderField : Type}.
Variable entity_id : Entity -> string.

#[local] Abbreviation FindOptions := (@FindOptions OrderField).
#[local] Abbreviation PaginateOptions := (@PaginateOptions Entity OrderField).
#[local] Abbreviation Window := (@Window Entity).
#[local] Abbreviation Connection := (@Connection Entity).

(** [paginate] is the fetch of the window followed by the validation of
    the cursor and the assembly of the connection. *)
Lemma paginate_after_fetch (fo : FindOptions) (opts : PaginateOptions) :
  paginate entity_id fo opts =
  (w <- fetch_window fo opts ;;
   _ <- check_cursor entity_id (w_cursor w) opts (w_results w) ;;
   edges <- build_edges entity_id fo opts (w_results w) (w_dbTake w)
              (w_skip w) ;;
   Return {| pageInfo := page_info edges (w_results w) (w_dbTake w)
                           (w_skip w);
             edges := edges;
             totalCount := w_totalCount w |}).
Proof.
  unfold paginate, fetch_window.
  destruct (decode_after fo opts) as [dc|e]; cbn; [|reflexivity].
  destruct (get_query opts) as [q|e]; cbn; [|reflexivity].
  destruct (order_query fo opts q) as [q'|e]; cbn; [|reflexivity].
  destruct (getCount q') as [n|e]; cbn; [|reflexivity].
  destruct (getMany _) as [rows|e]; cbn; reflexivity.
Qed.

Lemma fetch_window_inv (fo : FindOptions) (opts : PaginateOptions)
      (w : Window) :
  fetch_window fo opts = Return w ->
  exists dc q q' n rows,
    decode_after fo opts = Return dc /\
    get_query opts = Return q /\
    order_query fo opts q = Return q' /\
    getCount q' = Return n /\
    getMany (query_take (query_skip q' (skip_of dc)) (dbTake_of fo))
    = Return rows /\
    w = {| w_cursor := dc; w_skip := skip_of dc;
           w_dbTake := dbTake_of fo; w_totalCount := n;
           w_results := rows |}.
Proof.
  unfold fetch_window.
  destruct (decode_after fo opts) as [dc|e]; cbn; [|discriminate].
  destruct (get_query opts) as [q|e]; cbn; [|discriminate].
  destruct (order_query fo opts q) as [q'|e] eqn:Eq; cbn; [|discriminate].
  destruct (getCount q') as [n|e] eqn:En; cbn; [|discriminate].
  destruct (getMany _) as [rows|e] eqn:Er; cbn; [|discriminate].
  intros [= <-]. exists dc, q, q', n, rows. repeat split; assumption.
Qed.

Lemma fetch_window_dbTake (fo : FindOptions) (opts : PaginateOptions)
      (w : Window) :
  fetch_window fo opts = Return w -> w_dbTake w = dbTake_of fo.
Proof.
  intros H. apply fetch_window_inv
      in H as (dc & q & q' & n & rows & _ & _ & _ & _ & _ & ->).
  reflexivity.
Qed.

(** The test on [after] is false for an absent cursor and for the empty
    string, and for nothing else. *)
Lemma after_truthy_false (fo : FindOptions) :
  after_truthy fo = false <-> after fo = None \/ after fo = Some "".
Proof.
  unfold after_truthy, JS.truthy_string.
  destruct (after fo) as [a|]; [|intuition].
  destruct (String.eqb_spec a "") as [->|Hne]; cbn.
  - intuition.
  - split; [discriminate|]. intros [H|[= H]]; congruence.
Qed.

Lemma after_truthy_true (fo : FindOptions) :
  after_truthy fo = true <-> exists a, after fo = Some a /\ a <> "".
Proof.
  unfold after_truthy, JS.truthy_string.
  destruct (after fo) as [a|].
  - destruct (String.eqb_spec a "") as [->|Hne]; cbn.
    + split; [discriminate|]. intros (b & [= <-] & Hb). congruence.
    + split; [eauto|reflexivity].
  - split; [discriminate|]. intros (b & [=] & _).
Qed.

Lemma decode_after_falsy (fo : FindOptions) (opts : PaginateOptions) :
  after_truthy fo = false -> decode_after fo opts = Return None.
Proof.
  unfold after_truthy, decode_after.
  destruct (after fo) as [a|]; [|reflexivity]. intros ->. reflexivity.
Qed.

Lemma decode_after_truthy (fo : FindOptions) (opts : PaginateOptions)
      (a : string) :
  after fo = Some a -> a <> "" ->
  decode_after fo opts =
  (c <- decodeCursor a (type opts) ;; Return (Some c)).
Proof.
  intros Ha Hne. unfold decode_after, JS.truthy_string. rewrite Ha.
  apply String.eqb_neq in Hne. rewrite Hne. reflexivity.
Qed.

(** The loop of lines 282-291 over the rows that follow a prefix of
    [results]. *)
Lemma edges_loop_suffix (type : string) (skip : JS.number) (n : nat) :
  forall (before rows : list Entity) (acc : list Edge),
    (n <= List.length rows)%nat ->
    edges_loop entity_id (before ++ rows) type skip n
      (Z.of_nat (List.length before)) acc
    = Return (acc ++ number_rows entity_id type skip
                       (Z.of_nat (List.length before))
                       (firstn n rows))%list.
Proof.
  induction n as [|n IH]; intros before rows acc Hn; cbn [edges_loop].
  - cbn. rewrite app_nil_r. reflexivity.
  - destruct rows as [|r rest]; [cbn in Hn; lia|].
    unfold JS.at_index.
    destruct (Z.ltb_spec (Z.of_nat (List.length before)) 0) as [|_]; [lia|].
    rewrite Nat2Z.id, nth_error_app2, Nat.sub_diag by lia.
    cbn [nth_error firstn number_rows].
    replace (before ++ r :: rest) with ((before ++ [r]) ++ rest)
      by (rewrite <- app_assoc; reflexivity).
    replace (Z.of_nat (List.length before) + 1)
      with (Z.of_nat (List.length (before ++ [r])))
      by (rewrite length_app; cbn; lia).
    rewrite IH by (cbn in Hn; lia).
    rewrite <- app_assoc. reflexivity.
Qed.

Lemma loop_bound_le (results : list Entity) (dbTake : Z) :
  loop_bound results dbTake <= Z.of_nat (List.length results).
Proof.
  unfold loop_bound.
  destruct (Z.of_nat (List.length results) <? dbTake); lia.
Qed.

(** Edge assembly never throws: the loop stays inside [results]. *)
Lemma build_edges_returns (fo : FindOptions) (opts : PaginateOptions)
      (results : list Entity) (dbTake : Z) (skip : JS.number) :
  build_edges entity_id fo opts results dbTake skip
  = Return (number_rows entity_id (type opts) skip (loop_start fo)
              (firstn (Z.to_nat (loop_bound results dbTake - loop_start fo))
                      (skipn (Z.to_nat (loop_start fo)) results))).
Proof.
  unfold build_edges. cbv zeta.
  pose proof (loop_bound_le results dbTake) as Hb.
  set (n := Z.to_nat (loop_bound results dbTake - loop_start fo)).
  assert (Hs : 0 <= loop_start fo <= 1)
    by (unfold loop_start; destruct (after_truthy fo); lia).
  destruct n as [|n'] eqn:En; [reflexivity|].
  set (s := Z.to_nat (loop_start fo)).
  assert (Hlen : (s <= List.length results)%nat) by lia.
  pose proof (edges_loop_suffix (type opts) skip (S n')
                (firstn s results) (skipn s results) []) as H.
  rewrite firstn_skipn, length_firstn, Nat.min_l in H by exact Hlen.
  unfold s in H at 2 3. rewrite Z2Nat.id in H by lia.
  apply H. rewrite length_skipn. lia.
Qed.

Lemma number_rows_length (type : string) (skip : JS.number)
      (rows : list Entity) :
  forall i, List.length (number_rows entity_id type skip i rows)
            = List.length rows.
Proof. induction rows as [|r rest IH]; intros i; cbn; auto. Qed.

Lemma number_rows_nth (type : string) (skip : JS.number)
      (rows : list Entity) :
  forall (i : Z) (k : nat) (e : Edge),
    nth_error (number_rows entity_id type skip i rows) k = Some e ->
    exists r,
      nth_error rows k = Some r /\
      e = {| node := r;
             cursor := encodeCursor (entity_id r) type
                         (JS.add (JS.Num (i + Z.of_nat k)) skip) |}.
Proof.
  induction rows as [|r rest IH]; intros i k e; cbn [number_rows].
  - destruct k; discriminate.
  - destruct k as [|k]; cbn [nth_error].
    + intros [= <-]. exists r. rewrite Z.add_0_r. auto.
    + intros H. destruct (IH _ _ _ H) as (r' & Hr & ->).
      exists r'. split; [exact Hr|]. do 4 f_equal. lia.
Qed.

(** Under the contract of [take], the rows the loop keeps are the rows the
    specification keeps. *)
Lemma kept_rows (supplied : bool) (dbTake : Z) (results : list Entity) :
  Z.of_nat (List.length results) <= dbTake ->
  firstn (Z.to_nat (loop_bound results dbTake
                    - (if supplied then 1 else 0)))
         (skipn (Z.to_nat (if supplied then 1 else 0)) results)
  = retained_rows supplied dbTake results.
Proof.
  intros Hle. unfold loop_bound, retained_rows.
  destruct (Z.eqb_spec (Z.of_nat (List.length results)) dbTake) as [He|Hne].
  - destruct (Z.ltb_spec (Z.of_nat (List.length results)) dbTake); [lia|].
    rewrite removelast_firstn_len.
    destruct supplied.
    + destruct results as [|a [|b l]]; try reflexivity.
      cbn [List.length]. change (Z.to_nat 1) with 1%nat.
      replace (Z.to_nat (Z.of_nat (S (S (List.length l))) - 1 - 1))
        with (List.length l) by lia.
      reflexivity.
    + cbn [skipn Z.to_nat]. f_equal. lia.
  - destruct (Z.ltb_spec (Z.of_nat (List.length results)) dbTake); [|lia].
    destruct supplied.
    + change (Z.to_nat 1) with 1%nat.
      destruct results as [|a l]; [reflexivity|].
      cbn [skipn tl List.length]. apply firstn_all2. lia.
    + cbn [skipn Z.to_nat]. apply firstn_all2. lia.
Qed.

(** Under the contract of [take], a page has at most [first] edges, and
    none when [first <= 0]. *)
Lemma build_edges_length (fo : FindOptions) (opts : PaginateOptions)
      (results : list Entity) (skip : JS.number) (es : list Edge) :
  build_edges entity_id fo opts results (dbTake_of fo) skip = Return es ->
  Z.of_nat (List.length results) <= dbTake_of fo ->
  Z.of_nat (List.length es) <= Z.max 0 (first fo).
Proof.
  rewrite build_edges_returns. intros [= <-] Hle.
  rewrite number_rows_length, length_firstn, length_skipn.
  unfold loop_bound, loop_start, dbTake_of in *.
  destruct (after_truthy fo);
    destruct (Z.ltb_spec (Z.of_nat (List.length results))
                (first fo + 2));
    destruct (Z.ltb_spec (Z.of_nat (List.length results))
                (first fo + 1)); lia.
Qed.

Lemma page_info_start (es : list Edge) (results : list Entity)
      (dbTake : Z) (skip : JS.number) :
  startCursor (page_info es results dbTake skip)
  = option_map cursor (hd_error es).
Proof. destruct es; reflexivity. Qed.

Lemma page_info_end (es : list Edge) (results : list Entity)
      (dbTake : Z) (skip : JS.number) :
  endCursor (page_info es results dbTake skip)
  = option_map cursor (hd_error (List.rev es)).
Proof.
  cbn [page_info endCursor]. unfold JS.at_index.
  destruct es as [|e es'] using rev_ind; [reflexivity|].
  rewrite rev_unit, length_app. cbn [List.length hd_error option_map].
  destruct (Z.ltb_spec (Z.of_nat (List.length es' + 1) - 1) 0); [lia|].
  replace (Z.to_nat (Z.of_nat (List.length es' + 1) - 1))
    with (List.length es') by lia.
  rewrite nth_error_app2, Nat.sub_diag by lia. reflexivity.
Qed.

(** A call that gets through the fetch and the validation returns. *)
Lemma paginate_of_window (fo : FindOptions) (opts : PaginateOptions)
      (w : Window) :
  fetch_window fo opts = Return w ->
  check_cursor entity_id (w_cursor w) opts (w_results w) = Return tt ->
  let es := number_rows entity_id (type opts) (w_skip w) (loop_start fo)
              (firstn (Z.to_nat (loop_bound (w_results w) (w_dbTake w)
                                 - loop_start fo))
                      (skipn (Z.to_nat (loop_start fo)) (w_results w))) in
  paginate entity_id fo opts
  = Return {| pageInfo := page_info es (w_results w) (w_dbTake w) (w_skip w);
              edges := es;
              totalCount := w_totalCount w |}.
Proof.
  intros Hw Hc es. rewrite paginate_after_fetch, Hw. cbn [bind].
  rewrite Hc. cbn [bind]. rewrite build_edges_returns. reflexivity.
Qed.

(** A call that returns got through the fetch and the validation. *)
Lemma paginate_returns_inv (fo : FindOptions) (opts : PaginateOptions)
      (conn : Connection) :
  paginate entity_id fo opts = Return conn ->
  exists w,
    fetch_window fo opts = Return w /\
    check_cursor entity_id (w_cursor w) opts (w_results w) = Return tt.
Proof.
  rewrite paginate_after_fetch.
  destruct (fetch_window fo opts) as [w|e]; cbn [bind]; [|discriminate].
  destruct (check_cursor entity_id (w_cursor w) opts (w_results w))
    as [[]|e] eqn:Ec; cbn [bind]; [|discriminate].
  intros _. exists w. auto.
Qed.

(** The validation of lines 275-278, case by case. *)
Lemma check_cursor_cases (c : Cursor) (opts : PaginateOptions)
      (results : list Entity) :
  validateCursor opts = Some true ->
  check_cursor entity_id (Some c) opts results =
  match results with
  | [] => Throw TypeError
  | r0 :: _ =>
      if JS.strict_neq (cursor_id c) (JS.Str (entity_id r0))
      then Throw InvalidCursorError else Return tt
  end.
Proof.
  intros Hv. unfold check_cursor. rewrite Hv. cbn.
  destruct results; reflexivity.
Qed.

(** C1, as the code has it.  When a call reaches edge assembly, the window
    is [first + 2] with a cursor and [first + 1] without, and the edges
    are the fetched rows from position [1] if a cursor was supplied and
    [0] otherwise, up to the last row, which is left out exactly when the
    fetched rows are not fewer than the window; the edge of the row at
    position [i] carries [encodeCursor row.id type (i + skip)].  When the
    source returned at most the window, the last row is left out exactly
    when the window is full. *)
Theorem edges_of_fetched_rows (fo : FindOptions) (opts : PaginateOptions)
        (w : Window) :
  fetch_window fo opts = Return w ->
  check_cursor entity_id (w_cursor w) opts (w_results w) = Return tt ->
  let start := if after_truthy fo then 1 else 0 in
  let length := Z.of_nat (List.length (w_results w)) in
  let stop := if w_dbTake w <=? length then length - 1 else length in
  w_dbTake w = first fo + (if after_truthy fo then 2 else 1)
  /\ exists conn,
       paginate entity_id fo opts = Return conn /\
       Z.of_nat (List.length (edges conn)) = Z.max 0 (stop - start) /\
       (forall (k : nat) (e : Edge),
          nth_error (edges conn) k = Some e ->
          exists r,
            JS.at_index (w_results w) (start + Z.of_nat k) = Some r /\
            e = {| node := r;
                   cursor := encodeCursor (entity_id r) (type opts)
                               (JS.add (JS.Num (start + Z.of_nat k))
                                       (w_skip w)) |}) /\
       (length <= w_dbTake w ->
        stop = (if length =? w_dbTake w then length - 1 else length) /\
        edges conn
        = number_rows entity_id (type opts) (w_skip w) start
            (retained_rows (after_truthy fo) (w_dbTake w) (w_results w))).
Proof.
  intros Hw Hc start length stop. split.
  - rewrite (fetch_window_dbTake _ _ _ Hw). unfold dbTake_of.
    destruct (after_truthy fo); reflexivity.
  - assert (Hstart : loop_start fo = start) by reflexivity.
    assert (Hs : 0 <= start <= 1)
      by (unfold start; destruct (after_truthy fo); lia).
    eexists. split; [apply (paginate_of_window _ _ _ Hw Hc)|].
    cbn [edges]. rewrite Hstart. split; [|split].
    + rewrite number_rows_length, length_firstn, length_skipn.
      unfold stop, loop_bound. fold length.
      destruct (Z.leb_spec (w_dbTake w) length);
        destruct (Z.ltb_spec length (w_dbTake w)); lia.
    + intros k e He.
      apply number_rows_nth in He as (r & Hr & ->).
      exists r. split; [|reflexivity].
      rewrite nth_error_firstn in Hr.
      destruct (Nat.ltb k _); [|discriminate].
      rewrite nth_error_skipn in Hr. unfold JS.at_index.
      destruct (Z.ltb_spec (start + Z.of_nat k) 0); [lia|].
      rewrite <- Hr. f_equal. lia.
    + intros Hle. split.
      * unfold stop.
        destruct (Z.leb_spec (w_dbTake w) length);
          destruct (Z.eqb_spec length (w_dbTake w)); lia.
      * unfold start. rewrite kept_rows by exact Hle. reflexivity.
Qed.

(** C6, as the code has it.  The page info of a returned connection:
    [startCursor] is the cursor of the first edge and [endCursor] that of
    the last, both absent without edges; [hasNextPage] holds exactly when
    the fetched rows fill the window; [hasPreviousPage] holds exactly when
    [skip] is not [0]; the total count is the count of the source.  On an
    empty result set there are no edges and no cursors, and [hasNextPage]
    is false unless the window is [0], which is the case for [first = -1]
    without a cursor and for [first = -2] with one. *)
Theorem page_info_of_connection (fo : FindOptions) (opts : PaginateOptions)
        (conn : Connection) :
  paginate entity_id fo opts = Return conn ->
  exists w,
    fetch_window fo opts = Return w /\
    startCursor (pageInfo conn) = option_map cursor (hd_error (edges conn)) /\
    endCursor (pageInfo conn)
    = option_map cursor (hd_error (List.rev (edges conn))) /\
    (hasNextPage (pageInfo conn) = true
     <-> Z.of_nat (List.length (w_results w)) = w_dbTake w) /\
    (hasPreviousPage (pageInfo conn) = true <-> w_skip w <> JS.Num 0) /\
    totalCount conn = w_totalCount w /\
    (w_results w = [] ->
     edges conn = [] /\
     startCursor (pageInfo conn) = None /\
     endCursor (pageInfo conn) = None /\
     (w_totalCount w = 0 -> totalCount conn = 0) /\
     (hasNextPage (pageInfo conn) = true
      <-> first fo = (if after_truthy fo then -2 else -1))).
Proof.
  intros Hp. destruct (paginate_returns_inv _ _ _ Hp) as (w & Hw & Hc).
  rewrite (paginate_of_window _ _ _ Hw Hc) in Hp. injection Hp as <-.
  exists w. cbn [pageInfo edges totalCount].
  rewrite page_info_start, page_info_end.
  cbn [page_info hasNextPage hasPreviousPage].
  split; [exact Hw|]. split; [reflexivity|]. split; [reflexivity|].
  split; [apply Z.eqb_eq|].
  split.
  { unfold JS.number_strict_neq, JS.number_strict_eq.
    destruct (w_skip w) as [z| |text written]; cbn.
    - destruct (Z.eqb_spec z 0) as [->|]; cbn; split; congruence.
    - split; [discriminate|reflexivity].
    - split; [discriminate|reflexivity]. }
  split; [reflexivity|].
  intros Hr. rewrite Hr, skipn_nil, firstn_nil.
  cbn [number_rows List.rev hd_error option_map List.length].
  repeat split; try tauto.
  - rewrite Z.eqb_eq, (fetch_window_dbTake _ _ _ Hw). unfold dbTake_of.
    destruct (after_truthy fo); lia.
  - rewrite Z.eqb_eq, (fetch_window_dbTake _ _ _ Hw). unfold dbTake_of.
    destruct (after_truthy fo); lia.
Qed.

(** C9, as the code has it.  With a source that returns at most the window
    it was asked for, a returned connection has at most [first] edges
    when [first >= 0] and no edge when [first < 0]. *)
Theorem page_holds_at_most_first (fo : FindOptions)
        (opts : PaginateOptions) (w : Window) (conn : Connection) :
  fetch_window fo opts = Return w ->
  Z.of_nat (List.length (w_results w)) <= w_dbTake w ->
  paginate entity_id fo opts = Return conn ->
  Z.of_nat (List.length (edges conn)) <= Z.max 0 (first fo)
  /\ (0 <= first fo -> Z.of_nat (List.length (edges conn)) <= first fo)
  /\ (first fo < 0 -> edges conn = []).
Proof.
  intros Hw Hle Hp.
  destruct (paginate_returns_inv _ _ _ Hp) as (w' & Hw' & Hc).
  assert (w' = w) by congruence. subst w'.
  rewrite (paginate_of_window _ _ _ Hw Hc) in Hp. injection Hp as <-.
  cbn [edges]. rewrite (fetch_window_dbTake _ _ _ Hw) in *.
  pose proof (build_edges_length fo opts (w_results w) (w_skip w) _
                (build_edges_returns fo opts _ _ _) Hle) as Hlen.
  split; [exact Hlen|]. split; [lia|].
  intros Hneg. apply length_zero_iff_nil. lia.
Qed.

(** C8, as the code has it.  [first] is never validated.  With
    [first <= 0] the window asked of the source is [first + 1], or
    [first + 2] with a cursor, and a call that gets through the fetch and
    the validation of the cursor returns a connection, carrying the count
    of the source, whose page is empty when the source returned at most
    the window; and a call that throws throws what the fetch or the
    validation threw. *)
Theorem page_size_not_validated (fo : FindOptions)
        (opts : PaginateOptions) :
  first fo <= 0 ->
  (forall w,
     fetch_window fo opts = Return w ->
     check_cursor entity_id (w_cursor w) opts (w_results w) = Return tt ->
     w_dbTake w = first fo + (if after_truthy fo then 2 else 1) /\
     exists conn,
       paginate entity_id fo opts = Return conn /\
       totalCount conn = w_totalCount w /\
       (Z.of_nat (List.length (w_results w)) <= w_dbTake w ->
        edges conn = []))
  /\ (forall e,
        paginate entity_id fo opts = Throw e ->
        fetch_window fo opts = Throw e \/
        exists w, fetch_window fo opts = Return w /\
                  check_cursor entity_id (w_cursor w) opts (w_results w)
                  = Throw e).
Proof.
  intros Hfirst. split.
  - intros w Hw Hc. split.
    { rewrite (fetch_window_dbTake _ _ _ Hw). unfold dbTake_of.
      destruct (after_truthy fo); reflexivity. }
    eexists.
    split; [apply (paginate_of_window _ _ _ Hw Hc)|].
    cbn [totalCount edges]. split; [reflexivity|].
    intros Hle. rewrite (fetch_window_dbTake _ _ _ Hw) in *.
    pose proof (build_edges_length fo opts (w_results w) (w_skip w) _
                  (build_edges_returns fo opts _ _ _) Hle) as Hlen.
    apply length_zero_iff_nil. lia.
  - intros e. rewrite paginate_after_fetch.
    destruct (fetch_window fo opts) as [w|e']; cbn [bind];
      [|intros [= <-]; left; reflexivity].
    destruct (check_cursor entity_id (w_cursor w) opts (w_results w))
      as [[]|e'] eqn:Ec; cbn [bind].
    + rewrite build_edges_returns. cbn [bind]. discriminate.
    + intros [= <-]. right. exists w. auto.
Qed.

(** C10, as the code has it.  Without [orderBy] a call never returns a
    connection.  It throws the [TypeError] of the property read when the
    cursor, if any, decodes and a query source is supplied; before that, a
    cursor that does not decode and a missing query source throw their own
    errors. *)
Theorem absent_order_never_returns (fo : FindOptions)
        (opts : PaginateOptions) :
  orderBy fo = None ->
  (forall conn, paginate entity_id fo opts <> Return conn)
  /\ (forall dc q,
        decode_after fo opts = Return dc ->
        get_query opts = Return q ->
        paginate entity_id fo opts = Throw TypeError)
  /\ (forall e,
        decode_after fo opts = Throw e ->
        paginate entity_id fo opts = Throw e)
  /\ (forall dc e,
        decode_after fo opts = Return dc ->
        get_query opts = Throw e ->
        paginate entity_id fo opts = Throw e).
Proof.
  intros Ho. unfold paginate, order_query. rewrite Ho.
  destruct (decode_after fo opts) as [dc|e]; cbn [bind];
    destruct (get_query opts) as [q|e']; cbn [bind];
    repeat split; intros; congruence.
Qed.

(** C5, as the code has it.  When [findOptions.after] is absent or is the
    empty string, no cursor is decoded, [skip] is [0] and the window is
    [first + 1].  When it is a non-empty string it is decoded against the
    type of the options: what [decodeCursor] throws, [paginate] throws;
    otherwise [skip] is the index of the decoded cursor and the window is
    [first + 2]. *)
Theorem window_of_after (fo : FindOptions) (opts : PaginateOptions) :
  (after fo = None \/ after fo = Some "" ->
   forall w, fetch_window fo opts = Return w ->
             w_cursor w = None /\ w_skip w = JS.Num 0 /\
             w_dbTake w = first fo + 1)
  /\ (forall a, after fo = Some a -> a <> "" ->
        (forall e, decodeCursor a (type opts) = Throw e ->
                   paginate entity_id fo opts = Throw e) /\
        (forall w, fetch_window fo opts = Return w ->
                   exists c,
                     decodeCursor a (type opts) = Return c /\
                     w_cursor w = Some c /\
                     w_skip w = cursor_index c /\
                     w_dbTake w = first fo + 2)).
Proof.
  split.
  - intros Ha w Hw. apply after_truthy_false in Ha.
    apply fetch_window_inv
      in Hw as (dc & q & q' & n & rows & Hd & _ & _ & _ & _ & ->).
    rewrite (decode_after_falsy fo opts Ha) in Hd. injection Hd as <-.
    cbn. unfold dbTake_of. rewrite Ha. auto.
  - intros a Ha Hne.
    assert (Ht : after_truthy fo = true)
      by (apply after_truthy_true; eauto).
    split.
    + intros e He. unfold paginate.
      rewrite (decode_after_truthy fo opts a Ha Hne), He. reflexivity.
    + intros w Hw.
      apply fetch_window_inv
      in Hw as (dc & q & q' & n & rows & Hd & _ & _ & _ & _ & ->).
      rewrite (decode_after_truthy fo opts a Ha Hne) in Hd.
      destruct (decodeCursor a (type opts)) as [c|e]; cbn in Hd;
        [|discriminate].
      injection Hd as <-. exists c. cbn. unfold dbTake_of. rewrite Ht. auto.
Qed.

(** What the validation does with the window of a validated cursor: an
    empty window throws [TypeError]; a first row with another id throws
    [InvalidCursorError]. *)
Lemma validated_window (fo : FindOptions) (opts : PaginateOptions)
      (w : Window) (c : Cursor) :
  fetch_window fo opts = Return w ->
  w_cursor w = Some c ->
  validateCursor opts = Some true ->
  (w_results w = [] -> paginate entity_id fo opts = Throw TypeError)
  /\ (forall r0 rest,
        w_results w = r0 :: rest ->
        cursor_id c <> JS.Str (entity_id r0) ->
        paginate entity_id fo opts = Throw InvalidCursorError).
Proof.
  intros Hw Hc Hv. rewrite paginate_after_fetch, Hw. cbn [bind].
  rewrite Hc, (check_cursor_cases c opts _ Hv). split.
  - intros ->. reflexivity.
  - intros r0 rest -> Hne. apply strict_neq_true in Hne.
    rewrite Hne. reflexivity.
Qed.

End PaginatorFacts.

(* ===================================================================== *)
(** * The paginator on the table of users *)
(* ===================================================================== *)

Example first_page_of_five :
  exists es,
    Sample.run (Sample.request 2 None) (Sample.options Sample.five)
    = Return {| totalCount := 5;
                pageInfo := {| endCursor := Some (Sample.cursor_at "u1" 1);
                               startCursor := Some (Sample.cursor_at "u0" 0);
                               hasNextPage := true;
                               hasPreviousPage := false |};
                edges := es |}
    /\ map node es = [Sample.user "0"; Sample.user "1"].
Proof. eexists. split; vm_compute; reflexivity. Qed.

Example last_page_of_five :
  exists conn,
    Sample.run (Sample.request 10 None) (Sample.options Sample.five)
    = Return conn
    /\ map node (edges conn) = Sample.five
    /\ hasNextPage (pageInfo conn) = false
    /\ hasPreviousPage (pageInfo conn) = false.
Proof. eexists. repeat split; vm_compute; reflexivity. Qed.

Example middle_page_of_ten :
  exists conn,
    Sample.run (Sample.request 2 (Some (Sample.cursor_at "u2" 2)))
               (Sample.options Sample.ten)
    = Return conn
    /\ map cursor (edges conn)
       = [Sample.cursor_at "u3" 3; Sample.cursor_at "u4" 4]
    /\ hasNextPage (pageInfo conn) = true
    /\ hasPreviousPage (pageInfo conn) = true.
Proof. eexists. repeat split; vm_compute; reflexivity. Qed.

Example stale_cursor_of_ten :
  Sample.run (Sample.request 2 (Some (Sample.cursor_at "u7" 2)))
             (Sample.options Sample.ten)
  = Throw InvalidCursorError.
Proof. vm_compute. reflexivity. Qed.

Lemma cursor_round_trip_witness :
  decodeCursor (codec := Hex.codec) (Sample.cursor_at "u2" 2) "User"
  = Return {| cursor_id := JS.Str "u2"; cursor_type := JS.Str "User";
              cursor_index := JS.Num 2 |}.
Proof.
  destruct (cursor_round_trip (codec := Hex.codec) "u2" "User" 2)
    as [H _]; [exact hex_codec_lawful|reflexivity|reflexivity|lia|exact H].
Defined.

Lemma bytewise_codec_reads_bytes : reads_bytes Bytewise.codec.
Proof.
  intros s.
  change (bytes_as_text (Hex.of_hex (Hex.to_hex s)) = bytes_as_text s).
  f_equal. exact (hex_codec_lawful s).
Qed.

Lemma non_ascii_cursor_comes_back_changed_witness :
  decodeCursor (codec := Bytewise.codec)
    (encodeCursor (codec := Bytewise.codec) "é" "User" (JS.Num 0)) "User"
  = Return {| cursor_id := JS.Str "Ã©"; cursor_type := JS.Str "User";
              cursor_index := JS.Num 0 |}.
Proof.
  destruct (non_ascii_cursor_comes_back_changed (codec := Bytewise.codec)
              bytewise_codec_reads_bytes) as (_ & H & _).
  exact H.
Defined.


(** C4 fails on the code: a payload of three fields, a payload whose index
    is not a number and a payload whose index is negative all decode to a
    [Cursor]. *)
Lemma decode_accepts_malformed :
  decodeCursor (codec := Hex.codec) (Hex.to_hex "C|User|u1") "User"
  = Return {| cursor_id := JS.Str "u1"; cursor_type := JS.Str "User";
              cursor_index := JS.NaN |}
  /\ decodeCursor (codec := Hex.codec) (Hex.to_hex "C|User|u1|abc") "User"
     = Return {| cursor_id := JS.Str "u1"; cursor_type := JS.Str "User";
                 cursor_index := JS.NaN |}
  /\ decodeCursor (codec := Hex.codec) (Hex.to_hex "C|User|u1|-3") "User"
     = Return {| cursor_id := JS.Str "u1"; cursor_type := JS.Str "User";
                 cursor_index := JS.Num (-3) |}.
Proof. repeat split; vm_compute; reflexivity. Qed.

Lemma decode_malformed_by_tag_only_witness :
  decodeCursor (codec := Hex.codec) (Hex.to_hex "hello") "User"
  = Throw InvalidCursorError.
Proof.
  destruct (decode_malformed_by_tag_only (codec := Hex.codec)
              (Hex.to_hex "hello") "User") as (_ & H & _).
  apply H. vm_compute. reflexivity.
Defined.

Lemma edges_of_fetched_rows_witness :
  exists conn,
    Sample.run (Sample.request 2 (Some (Sample.cursor_at "u2" 2)))
               (Sample.options Sample.ten)
    = Return conn
    /\ Z.of_nat (List.length (edges conn)) = 2
    /\ edges conn
       = number_rows (codec := Hex.codec) Sample.id "User" (JS.Num 2) 1
           [Sample.user "3"; Sample.user "4"].
Proof.
  edestruct (edges_of_fetched_rows (codec := Hex.codec) Sample.id
               (Sample.request 2 (Some (Sample.cursor_at "u2" 2)))
               (Sample.options Sample.ten))
    as [_ (conn & Hp & Hn & _ & He)].
  - vm_compute. reflexivity.
  - vm_compute. reflexivity.
  - exists conn. split; [exact Hp|]. split; [exact Hn|].
    apply He. vm_compute. discriminate.
Defined.

(** C1 fails on the code: over a source for which a limit of [0] is no
    limit, a call with [first = -1] asks a window of [0] and is answered
    five rows; five is not the window, and yet the last row is left out
    of the page. *)
Lemma last_row_dropped_beyond_window :
  exists w conn,
    fetch_window (codec := Hex.codec) (Sample.request (-1) None)
                 (Sample.unbounded_options Sample.five) = Return w
    /\ w_dbTake w = 0
    /\ w_results w = Sample.five
    /\ (Z.of_nat (List.length (w_results w)) =? w_dbTake w) = false
    /\ Sample.run (Sample.request (-1) None)
                  (Sample.unbounded_options Sample.five) = Return conn
    /\ map node (edges conn)
       = [Sample.user "0"; Sample.user "1"; Sample.user "2"; Sample.user "3"]
    /\ retained_rows false (w_dbTake w) (w_results w) = Sample.five.
Proof.
  eexists. eexists. repeat split; vm_compute; reflexivity.
Qed.

Lemma page_info_of_connection_witness :
  exists w,
    fetch_window (codec := Hex.codec) (Sample.request 2 None)
                 (Sample.options Sample.five) = Return w
    /\ Z.of_nat (List.length (w_results w)) = w_dbTake w.
Proof.
  edestruct (page_info_of_connection (codec := Hex.codec) Sample.id
               (Sample.request 2 None) (Sample.options Sample.five))
    as (w & Hw & _ & _ & Hnext & _).
  - vm_compute. reflexivity.
  - exists w. split; [exact Hw|]. apply Hnext. reflexivity.
Defined.

(** C6 fails on the code: with [first = -1] over an empty table, the
    window is [0], the empty result set fills it, and the connection
    reports a next page. *)
Lemma empty_result_set_with_next_page :
  Sample.run (Sample.request (-1) None) (Sample.options [])
  = Return {| totalCount := 0;
              pageInfo := {| endCursor := None; startCursor := None;
                             hasNextPage := true;
                             hasPreviousPage := false |};
              edges := [] |}.
Proof. vm_compute. reflexivity. Qed.

Lemma page_holds_at_most_first_witness :
  exists conn,
    Sample.run (Sample.request 2 None) (Sample.options Sample.five)
    = Return conn
    /\ Z.of_nat (List.length (edges conn)) <= 2.
Proof.
  eexists. split; [vm_compute; reflexivity|].
  edestruct (page_holds_at_most_first (codec := Hex.codec) Sample.id
               (Sample.request 2 None) (Sample.options Sample.five))
    as (_ & H & _).
  - vm_compute. reflexivity.
  - vm_compute. discriminate.
  - vm_compute. reflexivity.
  - apply H. vm_compute. discriminate.
Defined.

(** C9 fails on the code: with [first = -1] over an empty table the source
    returns no more than the window of [0], and the connection has [0]
    edges, which is more than [first]. *)
Lemma more_edges_than_a_negative_first :
  exists w conn,
    fetch_window (codec := Hex.codec) (Sample.request (-1) None)
                 (Sample.options []) = Return w
    /\ Z.of_nat (List.length (w_results w)) <= w_dbTake w
    /\ Sample.run (Sample.request (-1) None) (Sample.options [])
       = Return conn
    /\ ~ Z.of_nat (List.length (edges conn))
         <= first (Sample.request (-1) None).
Proof.
  eexists. eexists. split; [vm_compute; reflexivity|].
  split; [vm_compute; discriminate|].
  split; [vm_compute; reflexivity|].
  vm_compute. intros H. apply H. reflexivity.
Qed.

(** C8 fails on the code: a page size of [0] is served, and the source is
    queried for its count and for a window of one row. *)
Lemma zero_page_is_served :
  Sample.run (Sample.request 0 None) (Sample.options Sample.five)
  = Return {| totalCount := 5;
              pageInfo := {| endCursor := None; startCursor := None;
                             hasNextPage := true;
                             hasPreviousPage := false |};
              edges := [] |}
  /\ exists w,
       fetch_window (codec := Hex.codec) (Sample.request 0 None)
                    (Sample.options Sample.five) = Return w
       /\ w_dbTake w = 1 /\ w_results w = [Sample.user "0"].
Proof.
  split; [vm_compute; reflexivity|].
  eexists. repeat split; vm_compute; reflexivity.
Qed.

Lemma page_size_not_validated_witness :
  exists conn,
    Sample.run (Sample.request (-1) None) (Sample.options Sample.five)
    = Return conn
    /\ totalCount conn = 5 /\ edges conn = [].
Proof.
  destruct (page_size_not_validated (codec := Hex.codec) Sample.id
              (Sample.request (-1) None) (Sample.options Sample.five))
    as [H _]; [vm_compute; discriminate|].
  edestruct H as (_ & conn & Hp & Hc & He).
  - vm_compute. reflexivity.
  - vm_compute. reflexivity.
  - exists conn. split; [exact Hp|]. split; [exact Hc|].
    apply He. vm_compute. discriminate.
Defined.

(** C10 fails on the code: without [orderBy], a cursor that does not decode
    throws [InvalidCursorError] and a missing query source throws its
    [Error], both before the property read. *)
Lemma absent_order_other_errors :
  Sample.run (Sample.unordered 2 (Some (Hex.to_hex "not a cursor")))
             (Sample.options Sample.five)
  = Throw InvalidCursorError
  /\ Sample.run (Sample.unordered 2 None) Sample.no_source
     = Throw (Error
         "A QueryBuilder or Repository object must be provided to paginate.").
Proof. split; vm_compute; reflexivity. Qed.

Lemma absent_order_never_returns_witness :
  Sample.run (Sample.unordered 2 None) (Sample.options Sample.five)
  = Throw TypeError.
Proof.
  destruct (absent_order_never_returns (codec := Hex.codec) Sample.id
              (Sample.unordered 2 None) (Sample.options Sample.five))
    as (_ & H & _); [reflexivity|].
  eapply H; vm_compute; reflexivity.
Defined.

(** C5 fails on the code: an [after] that is present and empty is not
    decoded; the call serves the first page with a window of [first + 1],
    where decoding the empty cursor would have thrown. *)
Lemma empty_after_is_no_cursor :
  after (Sample.request 2 (Some "")) = Some ""
  /\ decodeCursor (codec := Hex.codec) "" "User" = Throw InvalidCursorError
  /\ dbTake_of (Sample.request 2 (Some "")) = 3
  /\ Sample.run (Sample.request 2 (Some "")) (Sample.options Sample.five)
     = Sample.run (Sample.request 2 None) (Sample.options Sample.five)
  /\ exists conn,
       Sample.run (Sample.request 2 (Some "")) (Sample.options Sample.five)
       = Return conn.
Proof.
  repeat split; try (vm_compute; reflexivity).
  eexists. vm_compute. reflexivity.
Qed.

Lemma window_of_after_witness :
  exists w c,
    fetch_window (codec := Hex.codec)
      (Sample.request 2 (Some (Sample.cursor_at "u2" 2)))
      (Sample.options Sample.ten) = Return w
    /\ decodeCursor (codec := Hex.codec) (Sample.cursor_at "u2" 2) "User"
       = Return c
    /\ w_cursor w = Some c /\ w_skip w = cursor_index c
    /\ w_dbTake w = 2 + 2.
Proof.
  destruct (window_of_after (codec := Hex.codec) Sample.id
              (Sample.request 2 (Some (Sample.cursor_at "u2" 2)))
              (Sample.options Sample.ten)) as [_ H].
  destruct (H (Sample.cursor_at "u2" 2)) as [_ Hw];
    [reflexivity|vm_compute; discriminate|].
  edestruct Hw as (c & Hc); [vm_compute; reflexivity|].
  eexists. exists c. split; [reflexivity|exact Hc].
Defined.

(** C3 on the code: a well-formed cursor that points past the end of the
    ten rows, with the validation enabled, fetches an empty window and
    throws the [TypeError] of [results[0].id], not [InvalidCursorError]. *)
Theorem cursor_past_the_end_throws_type_error :
  decodeCursor (codec := Hex.codec) (Sample.cursor_at "u9" 12) "User"
  = Return {| cursor_id := JS.Str "u9"; cursor_type := JS.Str "User";
              cursor_index := JS.Num 12 |}
  /\ (exists w,
        fetch_window (codec := Hex.codec)
          (Sample.request 2 (Some (Sample.cursor_at "u9" 12)))
          (Sample.options Sample.ten) = Return w
        /\ w_results w = [])
  /\ Sample.run (Sample.request 2 (Some (Sample.cursor_at "u9" 12)))
                (Sample.options Sample.ten)
     = Throw TypeError.
Proof.
  split; [vm_compute; reflexivity|].
  split; [|vm_compute; reflexivity].
  eexists. split; vm_compute; reflexivity.
Qed.

(* ===================================================================== *)
(** * More on the cursor codec: separators, extra fields, messages *)
(* ===================================================================== *)

Section CursorCodecSeparators.

Context {codec : OpaqueId}.

Lemma split_append (sep : ascii) (x y : string) :
  JS.split sep (x ++ String sep y)
  = (JS.split sep x ++ JS.split sep y)%list.
Proof.
  induction x as [|c rest IH]; cbn.
  - rewrite Ascii.eqb_refl. reflexivity.
  - rewrite IH. destruct (Ascii.eqb c sep); [reflexivity|].
    pose proof (split_never_empty sep rest) as Hne.
    destruct (JS.split sep rest) as [|f fs]; [congruence|reflexivity].
Qed.

(** No field of a split holds the separator. *)
Lemma split_fields_clean (sep : ascii) (s : string) :
  Forall (fun f => JS.occurs sep f = false) (JS.split sep s).
Proof.
  induction s as [|c rest IH]; cbn.
  - repeat constructor.
  - destruct (Ascii.eqb c sep) eqn:Ec.
    + constructor; [reflexivity|exact IH].
    + destruct (JS.split sep rest) as [|f fs].
      * repeat constructor. cbn. rewrite Ec. reflexivity.
      * inversion IH as [|? ? Hf Hfs]; subst.
        constructor; [|exact Hfs]. cbn. rewrite Ec, Hf. reflexivity.
Qed.

Lemma first_field_is_shorter (sep : ascii) (s f : string)
      (fs : list string) :
  JS.occurs sep s = true -> JS.split sep s = f :: fs -> f <> s.
Proof.
  intros Hs Hsplit ->. pose proof (split_fields_clean sep s) as Hclean.
  rewrite Hsplit in Hclean. inversion Hclean; congruence.
Qed.

Lemma string_to_number_inverse (n : JS.number) :
  JS.string_to_number (JS.number_to_string n) = n.
Proof.
  destruct n as [z| |text written];
    [apply string_to_number_to_string|reflexivity|].
  destruct (is_written_inv text written) as (Htrim & _ & Hint & q & Hq & Hs).
  cbn [JS.number_to_string]. unfold JS.string_to_number. rewrite Htrim.
  destruct text as [|c rest]; [discriminate Hq|].
  rewrite Hint, Hq. unfold JS.of_quantity. rewrite Hs.
  apply of_text_written.
Qed.

(** The fields of the payload [encodeCursor] builds, whatever the type and
    the id hold. *)
Lemma payload_split (id type : string) (index : JS.number) :
  JS.split "|" ("C|" ++ type ++ "|" ++ id ++ "|" ++ JS.number_to_string index)
  = ("C" :: JS.split "|" type ++ JS.split "|" id
         ++ [JS.number_to_string index])%list.
Proof.
  change ("C|" ++ type ++ "|" ++ id ++ "|" ++ JS.number_to_string index)
    with ("C" ++ String "|" (type ++ String "|"
            (id ++ String "|" (JS.number_to_string index)))).
  rewrite !split_append.
  rewrite (split_without_separator "|" (JS.number_to_string index))
    by apply number_to_string_no_separator.
  reflexivity.
Qed.

(** X1.  For a type without the separator, decoding an encoded cursor
    returns as id the part of the id before its first separator and reads
    the index from the field that follows; the id and the index come back
    as they were exactly when the id holds no separator. *)
Theorem decode_of_encode_cuts_id (id type : string) (index : JS.number) :
  lawful codec ->
  JS.occurs "|" type = false ->
  let fields := (JS.split "|" id ++ [JS.number_to_string index])%list in
  decodeCursor (encodeCursor id type index) type
  = Return {| cursor_id := JS.element fields 0;
              cursor_type := JS.Str type;
              cursor_index := JS.times_one (JS.element fields 1) |}
  /\ (decodeCursor (encodeCursor id type index) type
      = Return {| cursor_id := JS.Str id; cursor_type := JS.Str type;
                  cursor_index := index |}
      <-> JS.occurs "|" id = false).
Proof.
  intros Hlaw Htype fields.
  assert (Hdec : decodeCursor (encodeCursor id type index) type
                 = Return {| cursor_id := JS.element fields 0;
                             cursor_type := JS.Str type;
                             cursor_index :=
                               JS.times_one (JS.element fields 1) |}).
  { rewrite (decodeCursor_tagged _ type type fields).
    - rewrite String.eqb_refl. reflexivity.
    - unfold encodeCursor. rewrite Hlaw, payload_split.
      rewrite (split_without_separator "|" type Htype). reflexivity. }
  split; [exact Hdec|]. rewrite Hdec. unfold fields. split.
  - intros [= Hid _].
    destruct (JS.occurs "|" id) eqn:Hsep; [|reflexivity].
    pose proof (split_never_empty "|" id) as Hne.
    destruct (JS.split "|" id) as [|f fs] eqn:Hsplit; [congruence|].
    cbn in Hid. injection Hid as Hid.
    destruct (first_field_is_shorter "|" id f fs Hsep Hsplit Hid).
  - intros Hid. rewrite (split_without_separator "|" id Hid).
    change (JS.times_one (JS.element ([id] ++ [JS.number_to_string index]) 1))
      with (JS.string_to_number (JS.number_to_string index)).
    rewrite string_to_number_inverse. reflexivity.
Qed.


Lemma element_firstn (n k : nat) (fields : list string) :
  (k < n)%nat -> JS.element (firstn n fields) k = JS.element fields k.
Proof.
  intros Hk. unfold JS.element. rewrite nth_error_firstn.
  apply Nat.ltb_lt in Hk. rewrite Hk. reflexivity.
Qed.

(** X3.  [decodeCursor] reads the first four fields of the payload and
    nothing else: two cursors whose payloads agree on them decode alike,
    whatever follows the fourth field. *)
Theorem decode_reads_four_fields (cursor cursor' type : string) :
  firstn 4 (JS.split "|" (decode cursor))
  = firstn 4 (JS.split "|" (decode cursor')) ->
  decodeCursor cursor type = decodeCursor cursor' type.
Proof.
  intros Hsame.
  assert (H : forall k, (k < 4)%nat ->
                JS.element (JS.split "|" (decode cursor)) k
                = JS.element (JS.split "|" (decode cursor')) k).
  { intros k Hk. rewrite <- (element_firstn 4 k _ Hk), Hsame.
    apply element_firstn, Hk. }
  unfold decodeCursor. cbv zeta.
  rewrite (H 0%nat), (H 1%nat), (H 2%nat), (H 3%nat) by lia.
  reflexivity.
Qed.

(** X4.  What [decodeCursor] throws is an [InvalidCursorError] with the
    message ["Invalid cursor"], or an [InvalidCursorTypeError] whose
    message names the type asked for and the second field of the payload,
    which differs from it and reads ["undefined"] when it is missing. *)
Theorem decode_error_messages (cursor type : string) (e : exception) :
  decodeCursor cursor type = Throw e ->
  (e = InvalidCursorError /\
   error_name e = "Invalid Cursor Error" /\
   error_message e = Some "Invalid cursor")
  \/ (exists actual,
        actual = JS.element (JS.split "|" (decode cursor)) 1 /\
        actual <> JS.Str type /\
        e = InvalidCursorTypeError type actual /\
        error_name e = "Invalid Cursor Type Error" /\
        error_message e
        = Some ("Invalid cursor, expected type " ++ type
                ++ ", but got type " ++ template actual)).
Proof.
  unfold decodeCursor. cbv zeta.
  destruct (JS.strict_neq (JS.element _ 0) (JS.Str "C")).
  - intros [= <-]. left. auto.
  - destruct (JS.strict_neq (JS.element _ 1) (JS.Str type)) eqn:Hneq;
      [|discriminate].
    intros [= <-]. right. eexists. split; [reflexivity|].
    apply strict_neq_true in Hneq. auto.
Qed.

End CursorCodecSeparators.

Lemma decode_of_encode_cuts_id_witness :
  decodeCursor (codec := Hex.codec)
    (encodeCursor (codec := Hex.codec) "a|7|b" "User" (JS.Num 3)) "User"
  = Return {| cursor_id := JS.Str "a"; cursor_type := JS.Str "User";
              cursor_index := JS.Num 7 |}.
Proof.
  exact (proj1 (decode_of_encode_cuts_id (codec := Hex.codec)
                  "a|7|b" "User" (JS.Num 3) hex_codec_lawful eq_refl)).
Defined.


Lemma decode_reads_four_fields_witness :
  decodeCursor (codec := Hex.codec) (Hex.to_hex "C|User|u1|5|x|y") "User"
  = decodeCursor (codec := Hex.codec) (Hex.to_hex "C|User|u1|5") "User".
Proof.
  apply (decode_reads_four_fields (codec := Hex.codec)).
  vm_compute. reflexivity.
Defined.

Lemma decode_error_messages_witness :
  error_message (InvalidCursorTypeError "User" JS.Undefined)
  = Some "Invalid cursor, expected type User, but got type undefined".
Proof.
  destruct (decode_error_messages (codec := Hex.codec)
              (Hex.to_hex "C") "User"
              (InvalidCursorTypeError "User" JS.Undefined))
    as [(H & _)|(actual & Ha & _ & _ & _ & H)].
  - vm_compute. reflexivity.
  - discriminate H.
  - rewrite H, Ha. vm_compute. reflexivity.
Defined.

(* ===================================================================== *)
(** * The cursor codec over a codec that reads bytes *)
(* ===================================================================== *)

Section CursorCodecBytes.

Context {codec : OpaqueId}.

Lemma bytes_as_text_ascii (s : string) :
  JS.every is_ascii s = true -> bytes_as_text s = s.
Proof.
  induction s as [|c rest IH]; cbn [JS.every bytes_as_text]; [reflexivity|].
  intros H. apply andb_prop in H as [Hc Hrest].
  unfold is_ascii in Hc. rewrite Hc, (IH Hrest). reflexivity.
Qed.

Lemma every_append (p : ascii -> bool) (a b : string) :
  JS.every p (a ++ b) = JS.every p a && JS.every p b.
Proof.
  induction a as [|c rest IH]; cbn; [reflexivity|].
  rewrite IH, andb_assoc. reflexivity.
Qed.

Lemma every_implied (p q : ascii -> bool) (s : string) :
  (forall c, p c = true -> q c = true) ->
  JS.every p s = true -> JS.every q s = true.
Proof.
  intros Hpq. induction s as [|c rest IH]; cbn; [reflexivity|].
  intros H. apply andb_prop in H as [Hc Hrest].
  rewrite (Hpq c Hc), (IH Hrest). reflexivity.
Qed.

Lemma decimal_char_is_ascii (c : ascii) :
  JS.is_decimal_char c = true -> is_ascii c = true.
Proof. each_ascii c; vm_compute; congruence. Qed.

(** The payload of an ASCII id and type is ASCII. *)
Lemma payload_is_ascii (id type : string) (index : Z) :
  JS.every is_ascii id = true ->
  JS.every is_ascii type = true ->
  JS.every is_ascii
    ("C|" ++ type ++ "|" ++ id ++ "|" ++ JS.number_to_string (JS.Num index))
  = true.
Proof.
  intros Hid Htype.
  change ("C|" ++ type ++ "|" ++ id ++ "|" ++ JS.number_to_string (JS.Num index))
    with ("C|" ++ (type ++ ("|" ++ (id
            ++ ("|" ++ JS.number_to_string (JS.Num index)))))).
  rewrite !every_append, Hid, Htype.
  rewrite (every_implied JS.is_decimal_char is_ascii _
             decimal_char_is_ascii (every_decimal_number index)).
  reflexivity.
Qed.

(** The round trip where the codec gives the payload back. *)
Lemma decodeCursor_encodeCursor_at (id type : string) (index : Z) :
  decode (encode ("C|" ++ type ++ "|" ++ id ++ "|"
                  ++ JS.number_to_string (JS.Num index)))
  = "C|" ++ type ++ "|" ++ id ++ "|" ++ JS.number_to_string (JS.Num index) ->
  JS.occurs "|" id = false ->
  JS.occurs "|" type = false ->
  decodeCursor (encodeCursor id type (JS.Num index)) type
  = Return {| cursor_id := JS.Str id; cursor_type := JS.Str type;
              cursor_index := JS.Num index |}.
Proof.
  intros Hback Hid Htype.
  rewrite (decodeCursor_tagged _ type type
             [id; JS.number_to_string (JS.Num index)]).
  - rewrite String.eqb_refl.
    cbn [JS.element nth_error JS.times_one].
    rewrite string_to_number_to_string. reflexivity.
  - unfold encodeCursor. rewrite Hback. apply payload_fields; assumption.
Qed.

(** X16.  Under a codec that reads the bytes it wrote one character per
    byte, the cursor of an ASCII id and an ASCII type without the
    separator, and of an index [>= 0], decodes against the same type to
    exactly the id, the type and the index. *)
Theorem ascii_cursor_round_trip (id type : string) (index : Z) :
  reads_bytes codec ->
  JS.every is_ascii id = true ->
  JS.every is_ascii type = true ->
  JS.occurs "|" id = false ->
  JS.occurs "|" type = false ->
  0 <= index ->
  decodeCursor (encodeCursor id type (JS.Num index)) type
  = Return {| cursor_id := JS.Str id; cursor_type := JS.Str type;
              cursor_index := JS.Num index |}.
Proof.
  intros Hread Hida Htypea Hid Htype _.
  apply decodeCursor_encodeCursor_at; [|assumption|assumption].
  rewrite Hread. apply bytes_as_text_ascii, payload_is_ascii; assumption.
Qed.

End CursorCodecBytes.

Lemma ascii_cursor_round_trip_witness :
  decodeCursor (codec := Bytewise.codec)
    (encodeCursor (codec := Bytewise.codec) "u2" "User" (JS.Num 2)) "User"
  = Return {| cursor_id := JS.Str "u2"; cursor_type := JS.Str "User";
              cursor_index := JS.Num 2 |}.
Proof.
  apply (ascii_cursor_round_trip (codec := Bytewise.codec) "u2" "User" 2).
  - exact bytewise_codec_reads_bytes.
  - reflexivity.
  - reflexivity.
  - reflexivity.
  - reflexivity.
  - lia.
Defined.

(* ===================================================================== *)
(** * More on the paginator: what a call throws, the cursors of a page,
      and pages over a source that does not change *)
(* ===================================================================== *)

Section PaginatorPages.

#[local] Open Scope list_scope.

Context {codec : OpaqueId} {Entity OrderField : Type}.
Variable entity_id : Entity -> string.

#[local] Abbreviation FindOptions := (@FindOptions OrderField).
#[local] Abbreviation PaginateOptions := (@PaginateOptions Entity OrderField).
#[local] Abbreviation Window := (@Window Entity).
#[local] Abbreviation Connection := (@Connection Entity).
#[local] Abbreviation Order := (@Order OrderField).
#[local] Abbreviation SelectQueryBuilder := (@SelectQueryBuilder Entity).

(** The order of line 264, for the name [key] the mapping returned; the
    query of lines 264-266; the query of lines 270-273. *)
#[local] Abbreviation asked_order opts o key :=
  ((alias opts ++ "." ++ key)%string, direction o).
#[local] Abbreviation ordered_query q opts o key :=
  (query_orderBy q (alias opts ++ "." ++ key)%string (direction o)).
#[local] Abbreviation window_query q opts o key skip dbTake :=
  (query_take (query_skip (ordered_query q opts o key) skip) dbTake).

Lemma get_query_returns (opts : PaginateOptions) :
  queryBuilder opts <> None \/ repository opts <> None ->
  exists q, get_query opts = Return q.
Proof.
  unfold get_query. intros [H|H].
  - destruct (queryBuilder opts); [eauto|congruence].
  - destruct (queryBuilder opts); [eauto|].
    destruct (repository opts); [eauto|congruence].
Qed.

(** The fetch of the window, once the cursor is decoded and the query
    source chosen. *)
Lemma fetch_window_steps (fo : FindOptions) (opts : PaginateOptions)
      (dc : option Cursor) (q : SelectQueryBuilder) (o : Order) :
  decode_after fo opts = Return dc ->
  get_query opts = Return q ->
  orderBy fo = Some o ->
  fetch_window fo opts
  = (key <- orderFieldToKey opts (field o) ;;
     n <- getCount (ordered_query q opts o key) ;;
     rows <- getMany (window_query q opts o key (skip_of dc)
                        (dbTake_of fo)) ;;
     Return {| w_cursor := dc; w_skip := skip_of dc;
               w_dbTake := dbTake_of fo; w_totalCount := n;
               w_results := rows |}).
Proof.
  intros Hd Hq Ho. unfold fetch_window, order_query.
  rewrite Hd, Hq, Ho. cbn [bind].
  destruct (orderFieldToKey opts (field o)); reflexivity.
Qed.

(** What a call throws once the cursor is decoded, the query source
    chosen and the cursor needs no validation: what the mapping or the
    source threw. *)
Lemma throws_of_collaborators (fo : FindOptions) (opts : PaginateOptions)
      (dc : option Cursor) (q : SelectQueryBuilder) (o : Order)
      (e : exception) :
  decode_after fo opts = Return dc ->
  get_query opts = Return q ->
  orderBy fo = Some o ->
  (forall rows, check_cursor entity_id dc opts rows = Return tt) ->
  paginate entity_id fo opts = Throw e ->
  orderFieldToKey opts (field o) = Throw e
  \/ exists key,
       orderFieldToKey opts (field o) = Return key /\
       (getCount (ordered_query q opts o key) = Throw e \/
        getMany (window_query q opts o key (skip_of dc) (dbTake_of fo))
        = Throw e).
Proof.
  intros Hd Hq Ho Hcheck.
  rewrite paginate_after_fetch, (fetch_window_steps fo opts dc q o Hd Hq Ho).
  destruct (orderFieldToKey opts (field o)) as [key|e1]; cbn [bind];
    [|intros [= <-]; left; reflexivity].
  intros Hp. right. exists key. split; [reflexivity|].
  destruct (getCount _) as [n|e2]; cbn [bind] in Hp;
    [|injection Hp as <-; left; reflexivity].
  destruct (getMany _) as [rows|e3]; cbn [bind] in Hp;
    [|injection Hp as <-; right; reflexivity].
  cbn [w_cursor w_results] in Hp. rewrite Hcheck in Hp. cbn [bind] in Hp.
  rewrite build_edges_returns in Hp. discriminate Hp.
Qed.

(** The edge at position [k] of a returned page. *)
Lemma edges_pointwise (fo : FindOptions) (opts : PaginateOptions)
      (w : Window) (conn : Connection) :
  fetch_window fo opts = Return w ->
  paginate entity_id fo opts = Return conn ->
  forall (k : nat) (e : Edge),
    nth_error (edges conn) k = Some e ->
    exists r,
      JS.at_index (w_results w) (loop_start fo + Z.of_nat k) = Some r /\
      e = {| node := r;
             cursor := encodeCursor (entity_id r) (type opts)
                         (JS.add (JS.Num (loop_start fo + Z.of_nat k))
                                 (w_skip w)) |}.
Proof.
  intros Hw Hp k e He.
  destruct (paginate_returns_inv _ _ _ _ Hp) as (w' & Hw' & Hc).
  assert (w' = w) by congruence. subst w'.
  rewrite (paginate_of_window _ _ _ _ Hw Hc) in Hp. injection Hp as <-.
  cbn [edges] in He.
  apply number_rows_nth in He as (r & Hr & ->).
  exists r. split; [|reflexivity].
  assert (Hs : 0 <= loop_start fo)
    by (unfold loop_start; destruct (after_truthy fo); lia).
  rewrite nth_error_firstn in Hr. destruct (Nat.ltb k _); [|discriminate].
  rewrite nth_error_skipn in Hr. unfold JS.at_index.
  destruct (Z.ltb_spec (loop_start fo + Z.of_nat k) 0); [lia|].
  rewrite <- Hr. f_equal. lia.
Qed.

(** X5.  A call without a cursor ([after] absent or empty), with an order
    and a query source, throws nothing of its own: what it throws was
    thrown by the caller's mapping of the order field, by the count or by
    the fetch of the rows.  When it returns, the connection has no
    previous page and its edge at position [k] carries the cursor of
    index [k]. *)
Theorem first_page_throws_nothing_of_its_own (fo : FindOptions)
        (opts : PaginateOptions) (o : Order) :
  after_truthy fo = false ->
  orderBy fo = Some o ->
  queryBuilder opts <> None \/ repository opts <> None ->
  exists q,
    get_query opts = Return q /\
    (forall e,
       paginate entity_id fo opts = Throw e ->
       orderFieldToKey opts (field o) = Throw e
       \/ exists key,
            orderFieldToKey opts (field o) = Return key /\
            (getCount (ordered_query q opts o key) = Throw e \/
             getMany (window_query q opts o key (JS.Num 0) (first fo + 1))
             = Throw e)) /\
    (forall conn,
       paginate entity_id fo opts = Return conn ->
       hasPreviousPage (pageInfo conn) = false /\
       forall (k : nat) (e : Edge),
         nth_error (edges conn) k = Some e ->
         cursor e = encodeCursor (entity_id (node e)) (type opts)
                      (JS.Num (Z.of_nat k))).
Proof.
  intros Ht Ho Hsrc. destruct (get_query_returns opts Hsrc) as [q Hq].
  pose proof (decode_after_falsy fo opts Ht) as Hd.
  assert (Htake : dbTake_of fo = first fo + 1)
    by (unfold dbTake_of; rewrite Ht; reflexivity).
  exists q. split; [exact Hq|]. split.
  - intros e Hp. rewrite <- Htake.
    apply (throws_of_collaborators fo opts None q o e Hd Hq Ho);
      [reflexivity|exact Hp].
  - intros conn Hp.
    destruct (paginate_returns_inv _ _ _ _ Hp) as (w & Hw & Hc).
    assert (Hskip : w_skip w = JS.Num 0).
    { pose proof Hw as Hinv.
      apply fetch_window_inv
        in Hinv as (dc & q0 & q' & n & rows & Hd' & _ & _ & _ & _ & ->).
      rewrite Hd in Hd'. injection Hd' as <-. reflexivity. }
    split.
    + pose proof Hp as Hp'.
      rewrite (paginate_of_window _ _ _ _ Hw Hc) in Hp'.
      injection Hp' as <-. cbn [pageInfo page_info hasPreviousPage].
      rewrite Hskip. reflexivity.
    + intros k e He.
      destruct (edges_pointwise fo opts w conn Hw Hp k e He) as (r & _ & ->).
      cbn [cursor node]. rewrite Hskip. unfold loop_start. rewrite Ht.
      cbn [JS.add]. do 2 f_equal. lia.
Qed.

(** X6.  With the validation of the cursor off, a call whose cursor
    decodes, with an order and a query source, compares the id of the
    cursor with nothing: what it throws was thrown by the caller's
    mapping, by the count or by the fetch, asked at the offset of the
    cursor's index; when it returns, [hasPreviousPage] holds exactly when
    that index is not [0], and an empty window gives a page with no edge
    and no cursor. *)
Theorem unvalidated_cursor_is_not_compared (fo : FindOptions)
        (opts : PaginateOptions) (a : string) (c : Cursor) (o : Order) :
  after fo = Some a -> a <> ""%string ->
  decodeCursor a (type opts) = Return c ->
  JS.truthy_flag (validateCursor opts) = false ->
  orderBy fo = Some o ->
  queryBuilder opts <> None \/ repository opts <> None ->
  exists q,
    get_query opts = Return q /\
    (forall e,
       paginate entity_id fo opts = Throw e ->
       orderFieldToKey opts (field o) = Throw e
       \/ exists key,
            orderFieldToKey opts (field o) = Return key /\
            (getCount (ordered_query q opts o key) = Throw e \/
             getMany (window_query q opts o key (cursor_index c)
                        (first fo + 2))
             = Throw e)) /\
    (forall conn,
       paginate entity_id fo opts = Return conn ->
       exists w,
         fetch_window fo opts = Return w /\
         w_skip w = cursor_index c /\
         (hasPreviousPage (pageInfo conn) = true
          <-> cursor_index c <> JS.Num 0) /\
         (w_results w = [] ->
          edges conn = [] /\
          startCursor (pageInfo conn) = None /\
          endCursor (pageInfo conn) = None)).
Proof.
  intros Ha Hne Hc Hv Ho Hsrc.
  destruct (get_query_returns opts Hsrc) as [q Hq].
  assert (Ht : after_truthy fo = true) by (apply after_truthy_true; eauto).
  assert (Hd : decode_after fo opts = Return (Some c))
    by (rewrite (decode_after_truthy fo opts a Ha Hne), Hc; reflexivity).
  assert (Htake : dbTake_of fo = first fo + 2)
    by (unfold dbTake_of; rewrite Ht; reflexivity).
  exists q. split; [exact Hq|]. split.
  - intros e Hp. rewrite <- Htake.
    apply (throws_of_collaborators fo opts (Some c) q o e Hd Hq Ho);
      [|exact Hp].
    intros rows. unfold check_cursor. rewrite Hv. reflexivity.
  - intros conn Hp.
    destruct (paginate_returns_inv _ _ _ _ Hp) as (w & Hw & Hcheck).
    exists w. split; [exact Hw|].
    assert (Hskip : w_skip w = cursor_index c).
    { pose proof Hw as Hinv.
      apply fetch_window_inv
        in Hinv as (dc & q0 & q' & n & rows & Hd' & _ & _ & _ & _ & ->).
      rewrite Hd in Hd'. injection Hd' as <-. reflexivity. }
    split; [exact Hskip|].
    rewrite (paginate_of_window _ _ _ _ Hw Hcheck) in Hp.
    injection Hp as <-. cbn [pageInfo edges].
    rewrite page_info_start, page_info_end.
    cbn [page_info hasPreviousPage]. rewrite Hskip. split.
    + unfold JS.number_strict_neq, JS.number_strict_eq.
      destruct (cursor_index c) as [z| |text written]; cbn.
      * destruct (Z.eqb_spec z 0) as [->|]; cbn; split; congruence.
      * split; [discriminate|reflexivity].
      * split; [discriminate|reflexivity].
    + intros ->. rewrite skipn_nil, firstn_nil. cbn. auto.
Qed.

Lemma decodeCursor_encodeCursor_any (id type : string)
      (index : JS.number) :
  lawful codec ->
  JS.occurs "|" id = false ->
  JS.occurs "|" type = false ->
  decodeCursor (encodeCursor id type index) type
  = Return {| cursor_id := JS.Str id; cursor_type := JS.Str type;
              cursor_index := index |}.
Proof.
  intros Hlaw Hid Htype.
  rewrite (decodeCursor_tagged _ type type [id; JS.number_to_string index]).
  - rewrite String.eqb_refl.
    change (JS.times_one
              (JS.element ["C"%string; type; id; JS.number_to_string index] 3))
      with (JS.string_to_number (JS.number_to_string index)).
    rewrite string_to_number_inverse. reflexivity.
  - unfold encodeCursor. rewrite Hlaw. apply payload_fields; assumption.
Qed.

(** X9.  Every cursor of a returned page decodes, for the type of the
    call, to the id of its node and to the position of the node in the
    fetched window plus [skip], when neither the type nor that id holds
    the separator. *)
Theorem page_cursors_decode (fo : FindOptions) (opts : PaginateOptions)
        (conn : Connection) :
  lawful codec ->
  JS.occurs "|" (type opts) = false ->
  paginate entity_id fo opts = Return conn ->
  exists w,
    fetch_window fo opts = Return w /\
    forall (k : nat) (e : Edge),
      nth_error (edges conn) k = Some e ->
      JS.occurs "|" (entity_id (node e)) = false ->
      decodeCursor (cursor e) (type opts)
      = Return {| cursor_id := JS.Str (entity_id (node e));
                  cursor_type := JS.Str (type opts);
                  cursor_index :=
                    JS.add (JS.Num ((if after_truthy fo then 1 else 0)
                                    + Z.of_nat k))
                           (w_skip w) |}.
Proof.
  intros Hlaw Htype Hp.
  destruct (paginate_returns_inv _ _ _ _ Hp) as (w & Hw & _).
  exists w. split; [exact Hw|]. intros k e He Hid.
  destruct (edges_pointwise fo opts w conn Hw Hp k e He) as (r & _ & ->).
  cbn [cursor node] in *.
  apply decodeCursor_encodeCursor_any; assumption.
Qed.

(** X10.  A call whose cursor decodes to the index [0] reports no previous
    page, although its page starts after the first fetched row: every
    edge comes from a position [>= 1] of the window. *)
Theorem cursor_at_zero_hides_previous_page (fo : FindOptions)
        (opts : PaginateOptions) (w : Window) (c : Cursor)
        (conn : Connection) :
  fetch_window fo opts = Return w ->
  w_cursor w = Some c ->
  cursor_index c = JS.Num 0 ->
  paginate entity_id fo opts = Return conn ->
  hasPreviousPage (pageInfo conn) = false
  /\ forall (k : nat) (e : Edge),
       nth_error (edges conn) k = Some e ->
       JS.at_index (w_results w) (1 + Z.of_nat k) = Some (node e)
       /\ cursor e = encodeCursor (entity_id (node e)) (type opts)
                       (JS.Num (1 + Z.of_nat k)).
Proof.
  intros Hw Hc Hi Hp.
  assert (Ht : after_truthy fo = true).
  { pose proof Hw as Hinv.
    apply fetch_window_inv
      in Hinv as (dc & q & q' & n & rows & Hd & _ & _ & _ & _ & ->).
    cbn in Hc. subst dc.
    destruct (after_truthy fo) eqn:Ht; [reflexivity|].
    rewrite (decode_after_falsy fo opts Ht) in Hd. discriminate. }
  assert (Hskip : w_skip w = JS.Num 0).
  { pose proof Hw as Hinv.
    apply fetch_window_inv
      in Hinv as (dc & q & q' & n & rows & _ & _ & _ & _ & _ & ->).
    cbn in *. subst dc. exact Hi. }
  split.
  - destruct (paginate_returns_inv _ _ _ _ Hp) as (w' & Hw' & Hcheck).
    assert (w' = w) by congruence. subst w'.
    rewrite (paginate_of_window _ _ _ _ Hw Hcheck) in Hp.
    injection Hp as <-. cbn [pageInfo page_info hasPreviousPage].
    rewrite Hskip. reflexivity.
  - intros k e He.
    destruct (edges_pointwise fo opts w conn Hw Hp k e He) as (r & Hr & ->).
    unfold loop_start in *. rewrite Ht in *. rewrite Hskip.
    cbn [node cursor JS.add]. split; [exact Hr|].
    do 2 f_equal. lia.
Qed.

(** X11.  With a source that returned at most the window, and a page size
    [>= 0]: a connection that reports a next page holds exactly [first]
    edges, and one that reports none holds every fetched row but the row
    of the cursor. *)
Theorem next_page_flag_and_page_length (fo : FindOptions)
        (opts : PaginateOptions) (w : Window) (conn : Connection) :
  fetch_window fo opts = Return w ->
  Z.of_nat (List.length (w_results w)) <= w_dbTake w ->
  0 <= first fo ->
  paginate entity_id fo opts = Return conn ->
  (hasNextPage (pageInfo conn) = true ->
   Z.of_nat (List.length (edges conn)) = first fo)
  /\ (hasNextPage (pageInfo conn) = false ->
      Z.of_nat (List.length (edges conn))
      = Z.max 0 (Z.of_nat (List.length (w_results w))
                 - (if after_truthy fo then 1 else 0))).
Proof.
  intros Hw Hle Hfirst Hp.
  destruct (paginate_returns_inv _ _ _ _ Hp) as (w' & Hw' & Hcheck).
  assert (w' = w) by congruence. subst w'.
  rewrite (paginate_of_window _ _ _ _ Hw Hcheck) in Hp. injection Hp as <-.
  cbn [pageInfo page_info hasNextPage edges].
  rewrite number_rows_length, length_firstn, length_skipn.
  rewrite (fetch_window_dbTake _ _ _ Hw) in *.
  unfold loop_bound, loop_start, dbTake_of in *.
  destruct (after_truthy fo); cbv iota in *; split; intros Hn;
    first [apply Z.eqb_eq in Hn | apply Z.eqb_neq in Hn];
    destruct (Z.ltb_spec (Z.of_nat (List.length (w_results w)))
                (first fo + 2));
    destruct (Z.ltb_spec (Z.of_nat (List.length (w_results w)))
                (first fo + 1)); lia.
Qed.

Lemma window_slice {A : Type} (l : list A) (n m : nat) :
  (S n <= List.length l -> m = n)%nat ->
  (List.length l <= n -> m = List.length l)%nat ->
  firstn m (firstn (S n) l) = firstn n l.
Proof.
  intros Hfull Hshort.
  destruct (le_lt_dec (S n) (List.length l)) as [H|H].
  - rewrite (Hfull H), firstn_firstn. f_equal. lia.
  - rewrite (Hshort ltac:(lia)).
    rewrite (firstn_all2 (n := S n)) by lia.
    rewrite firstn_all, (firstn_all2 (n := n)) by lia. reflexivity.
Qed.

Lemma skipn_at_row {A : Type} (l : list A) :
  forall (j : nat) (r : A),
    nth_error l j = Some r -> skipn j l = r :: skipn (S j) l.
Proof.
  induction l as [|x l IH]; intros [|j] r; cbn; try discriminate.
  - intros [= ->]. reflexivity.
  - intros H. apply (IH _ _ H).
Qed.

(** The window a source answers that holds [rows] in the order asked. *)
Lemma fetch_window_served (fo : FindOptions) (opts : PaginateOptions)
      (dc : option Cursor) (q : SelectQueryBuilder) (o : Order)
      (key : string) (rows : list Entity) (k : Z) :
  decode_after fo opts = Return dc ->
  skip_of dc = JS.Num k -> 0 <= k ->
  get_query opts = Return q ->
  orderBy fo = Some o ->
  orderFieldToKey opts (field o) = Return key ->
  serves (from q) (asked_order opts o key) rows ->
  0 < dbTake_of fo ->
  fetch_window fo opts
  = Return {| w_cursor := dc; w_skip := JS.Num k;
              w_dbTake := dbTake_of fo;
              w_totalCount := Z.of_nat (List.length rows);
              w_results :=
                firstn (Z.to_nat (dbTake_of fo))
                       (skipn (Z.to_nat k) rows) |}.
Proof.
  intros Hd Hk Hk0 Hq Ho Hkey [Hcount Hrows] Htake.
  rewrite (fetch_window_steps fo opts dc q o Hd Hq Ho), Hkey, Hk.
  cbn [bind]. unfold getCount, getMany.
  cbn [query_orderBy query_skip query_take from ordered offset limit].
  rewrite Hcount, (Hrows k (dbTake_of fo) Hk0 Htake). reflexivity.
Qed.

(** X12.  Over a source that holds [rows] in the order asked and honours
    offset and limit, a call without a cursor and with a page size [>= 0],
    whose order field the mapping accepts, returns the first [first] rows,
    numbered from [0]; it reports a next page exactly when more than
    [first] rows exist, no previous page, and the number of rows as total
    count. *)
Theorem first_page_of_served_rows (fo : FindOptions)
        (opts : PaginateOptions) (o : Order) (q : SelectQueryBuilder)
        (key : string) (rows : list Entity) :
  after_truthy fo = false ->
  orderBy fo = Some o ->
  get_query opts = Return q ->
  orderFieldToKey opts (field o) = Return key ->
  serves (from q) (asked_order opts o key) rows ->
  0 <= first fo ->
  exists conn,
    paginate entity_id fo opts = Return conn /\
    edges conn
    = number_rows entity_id (type opts) (JS.Num 0) 0
        (firstn (Z.to_nat (first fo)) rows) /\
    (hasNextPage (pageInfo conn) = true
     <-> first fo < Z.of_nat (List.length rows)) /\
    hasPreviousPage (pageInfo conn) = false /\
    totalCount conn = Z.of_nat (List.length rows).
Proof.
  intros Ht Ho Hq Hkey Hserves Hfirst.
  assert (Htake : dbTake_of fo = first fo + 1)
    by (unfold dbTake_of; rewrite Ht; reflexivity).
  pose proof (fetch_window_served fo opts None q o key rows 0
                (decode_after_falsy fo opts Ht) eq_refl ltac:(lia)
                Hq Ho Hkey Hserves ltac:(lia)) as Hw.
  rewrite Htake in Hw.
  change (skipn (Z.to_nat 0) rows) with rows in Hw.
  replace (Z.to_nat (first fo + 1)) with (S (Z.to_nat (first fo))) in Hw
    by lia.
  pose proof (paginate_of_window entity_id fo opts _ Hw eq_refl) as Hp.
  cbv zeta in Hp. cbn [w_results w_dbTake w_skip w_totalCount] in Hp.
  unfold loop_start in Hp. rewrite Ht in Hp.
  change (skipn (Z.to_nat 0) ?l) with l in Hp.
  eexists. split; [exact Hp|]. cbn [edges pageInfo totalCount].
  split; [|split; [|split; reflexivity]].
  - f_equal. apply window_slice; unfold loop_bound;
      rewrite length_firstn;
      destruct (Z.ltb_spec
                  (Z.of_nat (Nat.min (S (Z.to_nat (first fo)))
                                     (List.length rows)))
                  (first fo + 1)); lia.
  - cbn [page_info hasNextPage]. rewrite length_firstn.
    rewrite Z.eqb_eq. lia.
Qed.

(** X13.  Over a source that holds [rows] in the order asked and honours
    offset and limit, a call whose cursor decodes to the id and the index
    [j] of a row of [rows], with a page size [>= 0] and an order field the
    mapping accepts, returns the [first] rows that follow row [j],
    numbered from [j + 1], with the validation on or off; it reports a
    next page exactly when rows exist beyond them and a previous page
    exactly when [j] is not [0]. *)
Theorem next_page_of_served_rows (fo : FindOptions)
        (opts : PaginateOptions) (a : string) (c : Cursor) (o : Order)
        (q : SelectQueryBuilder) (key : string) (rows : list Entity)
        (j : nat) (r : Entity) :
  after fo = Some a -> a <> ""%string ->
  decodeCursor a (type opts) = Return c ->
  cursor_id c = JS.Str (entity_id r) ->
  cursor_index c = JS.Num (Z.of_nat j) ->
  nth_error rows j = Some r ->
  orderBy fo = Some o ->
  get_query opts = Return q ->
  orderFieldToKey opts (field o) = Return key ->
  serves (from q) (asked_order opts o key) rows ->
  0 <= first fo ->
  exists conn,
    paginate entity_id fo opts = Return conn /\
    edges conn
    = number_rows entity_id (type opts) (JS.Num (Z.of_nat j)) 1
        (firstn (Z.to_nat (first fo)) (skipn (S j) rows)) /\
    (hasNextPage (pageInfo conn) = true
     <-> Z.of_nat j + 1 + first fo < Z.of_nat (List.length rows)) /\
    (hasPreviousPage (pageInfo conn) = true <-> j <> 0%nat) /\
    totalCount conn = Z.of_nat (List.length rows).
Proof.
  intros Ha Hne Hc Hid Hindex Hr Ho Hq Hkey Hserves Hfirst.
  assert (Ht : after_truthy fo = true) by (apply after_truthy_true; eauto).
  assert (Hd : decode_after fo opts = Return (Some c))
    by (rewrite (decode_after_truthy fo opts a Ha Hne), Hc; reflexivity).
  assert (Htake : dbTake_of fo = first fo + 2)
    by (unfold dbTake_of; rewrite Ht; reflexivity).
  pose proof (fetch_window_served fo opts (Some c) q o key rows
                (Z.of_nat j) Hd Hindex ltac:(lia)
                Hq Ho Hkey Hserves ltac:(lia)) as Hw.
  rewrite Htake in Hw.
  rewrite Nat2Z.id, (skipn_at_row rows j r Hr) in Hw.
  replace (Z.to_nat (first fo + 2)) with (S (S (Z.to_nat (first fo))))
    in Hw by lia.
  rewrite firstn_cons in Hw.
  set (rest := skipn (S j) rows) in *.
  set (n := Z.to_nat (first fo)) in *.
  assert (Hrest : List.length rest = (List.length rows - S j)%nat)
    by (unfold rest; apply length_skipn).
  assert (Hj : (j < List.length rows)%nat)
    by (apply nth_error_Some; congruence).
  assert (Hcheck : check_cursor entity_id (Some c) opts
                     (r :: firstn (S n) rest) = Return tt).
  { unfold check_cursor. destruct (JS.truthy_flag _); [|reflexivity].
    cbn. rewrite (proj2 (strict_neq_false _ _) Hid). reflexivity. }
  pose proof (paginate_of_window entity_id fo opts _ Hw Hcheck) as Hp.
  cbv zeta in Hp. cbn [w_results w_dbTake w_skip w_totalCount] in Hp.
  unfold loop_start in Hp. rewrite Ht in Hp.
  change (skipn (Z.to_nat 1) (r :: ?l)) with l in Hp.
  eexists. split; [exact Hp|]. cbn [edges pageInfo totalCount].
  split; [|split; [|split; [|reflexivity]]].
  - f_equal. apply window_slice; unfold loop_bound;
      cbn [List.length]; rewrite length_firstn;
      destruct (Z.ltb_spec
                  (Z.of_nat (S (Nat.min (S n) (List.length rest))))
                  (first fo + 2)); lia.
  - cbn [page_info hasNextPage List.length]. rewrite length_firstn.
    rewrite Z.eqb_eq. lia.
  - cbn [page_info hasPreviousPage].
    unfold JS.number_strict_neq, JS.number_strict_eq.
    destruct (Z.eqb_spec (Z.of_nat j) 0); cbn; split; intros; try lia;
      congruence.
Qed.

(** X14.  Over the same source, with the validation on, a cursor that
    decodes to the index of a row which now has another id is refused with
    [InvalidCursorError]. *)
Theorem stale_cursor_of_served_rows (fo : FindOptions)
        (opts : PaginateOptions) (a : string) (c : Cursor) (o : Order)
        (q : SelectQueryBuilder) (key : string) (rows : list Entity)
        (j : nat) (r : Entity) :
  after fo = Some a -> a <> ""%string ->
  decodeCursor a (type opts) = Return c ->
  cursor_index c = JS.Num (Z.of_nat j) ->
  nth_error rows j = Some r ->
  cursor_id c <> JS.Str (entity_id r) ->
  validateCursor opts = Some true ->
  orderBy fo = Some o ->
  get_query opts = Return q ->
  orderFieldToKey opts (field o) = Return key ->
  serves (from q) (asked_order opts o key) rows ->
  0 <= first fo ->
  paginate entity_id fo opts = Throw InvalidCursorError.
Proof.
  intros Ha Hne Hc Hindex Hr Hid Hv Ho Hq Hkey Hserves Hfirst.
  assert (Ht : after_truthy fo = true) by (apply after_truthy_true; eauto).
  assert (Hd : decode_after fo opts = Return (Some c))
    by (rewrite (decode_after_truthy fo opts a Ha Hne), Hc; reflexivity).
  assert (Htake : dbTake_of fo = first fo + 2)
    by (unfold dbTake_of; rewrite Ht; reflexivity).
  pose proof (fetch_window_served fo opts (Some c) q o key rows
                (Z.of_nat j) Hd Hindex ltac:(lia)
                Hq Ho Hkey Hserves ltac:(lia)) as Hw.
  rewrite Htake in Hw.
  rewrite Nat2Z.id, (skipn_at_row rows j r Hr) in Hw.
  replace (Z.to_nat (first fo + 2)) with (S (S (Z.to_nat (first fo))))
    in Hw by lia.
  rewrite firstn_cons in Hw.
  rewrite paginate_after_fetch, Hw. cbn [bind w_cursor w_results].
  rewrite (check_cursor_cases entity_id c opts _ Hv).
  apply strict_neq_true in Hid. rewrite Hid. reflexivity.
Qed.

End PaginatorPages.

(* ===================================================================== *)
(** * The pages of the table of users *)
(* ===================================================================== *)

Lemma sample_table_serves (rows : list Sample.User)
      (order : string * OrderDirection) :
  serves (Sample.table rows) order rows.
Proof. split; [reflexivity|]. intros k n _ _. reflexivity. Qed.

Lemma first_page_throws_nothing_of_its_own_witness :
  exists conn,
    Sample.run (Sample.request 2 None) (Sample.options Sample.five)
    = Return conn
    /\ hasPreviousPage (pageInfo conn) = false.
Proof.
  destruct (first_page_throws_nothing_of_its_own (codec := Hex.codec)
              Sample.id (Sample.request 2 None) (Sample.options Sample.five)
              {| direction := ASC; field := Sample.NAME |})
    as (q & _ & _ & H).
  - reflexivity.
  - reflexivity.
  - right. discriminate.
  - eexists. split; [vm_compute; reflexivity|].
    eapply H. vm_compute. reflexivity.
Defined.

Lemma unvalidated_cursor_is_not_compared_witness :
  exists conn,
    Sample.run (Sample.request 2 (Some (Sample.cursor_at "zz" 7)))
               (Sample.lenient Sample.five)
    = Return conn
    /\ edges conn = [].
Proof.
  destruct (unvalidated_cursor_is_not_compared (codec := Hex.codec)
              Sample.id
              (Sample.request 2 (Some (Sample.cursor_at "zz" 7)))
              (Sample.lenient Sample.five)
              (Sample.cursor_at "zz" 7)
              {| cursor_id := JS.Str "zz"; cursor_type := JS.Str "User";
                 cursor_index := JS.Num 7 |}
              {| direction := ASC; field := Sample.NAME |})
    as (q & _ & _ & H).
  - reflexivity.
  - vm_compute. discriminate.
  - vm_compute. reflexivity.
  - reflexivity.
  - reflexivity.
  - right. discriminate.
  - eexists. split; [vm_compute; reflexivity|].
    edestruct H as (w & Hw & _ & _ & Hempty); [vm_compute; reflexivity|].
    apply Hempty.
    assert (Hr : fetch_window (codec := Hex.codec)
                   (Sample.request 2 (Some (Sample.cursor_at "zz" 7)))
                   (Sample.lenient Sample.five)
                 = Return {| w_cursor :=
                               Some {| cursor_id := JS.Str "zz";
                                       cursor_type := JS.Str "User";
                                       cursor_index := JS.Num 7 |};
                             w_skip := JS.Num 7; w_dbTake := 4;
                             w_totalCount := 5; w_results := [] |})
      by (vm_compute; reflexivity).
    rewrite Hw in Hr. injection Hr as ->. reflexivity.
Defined.

Lemma page_cursors_decode_witness :
  exists conn w,
    Sample.run (Sample.request 2 (Some (Sample.cursor_at "u2" 2)))
               (Sample.options Sample.ten)
    = Return conn
    /\ fetch_window (codec := Hex.codec)
         (Sample.request 2 (Some (Sample.cursor_at "u2" 2)))
         (Sample.options Sample.ten) = Return w
    /\ forall (k : nat) (e : Edge),
         nth_error (edges conn) k = Some e ->
         JS.occurs "|" (Sample.id (node e)) = false ->
         decodeCursor (codec := Hex.codec) (cursor e) "User"
         = Return {| cursor_id := JS.Str (Sample.id (node e));
                     cursor_type := JS.Str "User";
                     cursor_index :=
                       JS.add (JS.Num (1 + Z.of_nat k)) (w_skip w) |}.
Proof.
  eexists.
  edestruct (page_cursors_decode (codec := Hex.codec) Sample.id
               (Sample.request 2 (Some (Sample.cursor_at "u2" 2)))
               (Sample.options Sample.ten)) as (w & Hw & H).
  - exact hex_codec_lawful.
  - reflexivity.
  - vm_compute. reflexivity.
  - exists w. split; [vm_compute; reflexivity|]. split; [exact Hw|exact H].
Defined.

Lemma cursor_at_zero_hides_previous_page_witness :
  exists conn,
    Sample.run (Sample.request 2 (Some (Sample.cursor_at "u0" 0)))
               (Sample.options Sample.ten)
    = Return conn
    /\ hasPreviousPage (pageInfo conn) = false
    /\ map node (edges conn) = [Sample.user "1"; Sample.user "2"].
Proof.
  eexists. split; [vm_compute; reflexivity|]. split; [|reflexivity].
  eapply (cursor_at_zero_hides_previous_page (codec := Hex.codec)
            Sample.id
            (Sample.request 2 (Some (Sample.cursor_at "u0" 0)))
            (Sample.options Sample.ten)).
  - vm_compute. reflexivity.
  - reflexivity.
  - reflexivity.
  - vm_compute. reflexivity.
Defined.

Lemma next_page_flag_and_page_length_witness :
  exists conn,
    Sample.run (Sample.request 2 None) (Sample.options Sample.five)
    = Return conn
    /\ Z.of_nat (List.length (edges conn)) = 2.
Proof.
  eexists. split; [vm_compute; reflexivity|].
  eapply (next_page_flag_and_page_length (codec := Hex.codec) Sample.id
            (Sample.request 2 None) (Sample.options Sample.five)).
  - vm_compute. reflexivity.
  - vm_compute. discriminate.
  - vm_compute. discriminate.
  - vm_compute. reflexivity.
  - reflexivity.
Defined.

Lemma first_page_of_served_rows_witness :
  exists conn,
    Sample.run (Sample.request 2 None) (Sample.options Sample.five)
    = Return conn
    /\ edges conn
       = number_rows (codec := Hex.codec) Sample.id "User" (JS.Num 0) 0
           [Sample.user "0"; Sample.user "1"].
Proof.
  destruct (first_page_of_served_rows (codec := Hex.codec) Sample.id
              (Sample.request 2 None) (Sample.options Sample.five)
              {| direction := ASC; field := Sample.NAME |}
              (createQueryBuilder (Sample.users_of Sample.five) "user")
              "name" Sample.five)
    as (conn & Hp & He & _).
  - reflexivity.
  - reflexivity.
  - reflexivity.
  - reflexivity.
  - apply sample_table_serves.
  - vm_compute. discriminate.
  - exists conn. split; [exact Hp|exact He].
Defined.

Lemma next_page_of_served_rows_witness :
  exists conn,
    Sample.run (Sample.request 2 (Some (Sample.cursor_at "u2" 2)))
               (Sample.options Sample.ten)
    = Return conn
    /\ edges conn
       = number_rows (codec := Hex.codec) Sample.id "User" (JS.Num 2) 1
           [Sample.user "3"; Sample.user "4"].
Proof.
  destruct (next_page_of_served_rows (codec := Hex.codec) Sample.id
              (Sample.request 2 (Some (Sample.cursor_at "u2" 2)))
              (Sample.options Sample.ten)
              (Sample.cursor_at "u2" 2)
              {| cursor_id := JS.Str "u2"; cursor_type := JS.Str "User";
                 cursor_index := JS.Num 2 |}
              {| direction := ASC; field := Sample.NAME |}
              (createQueryBuilder (Sample.users_of Sample.ten) "user")
              "name" Sample.ten 2%nat (Sample.user "2"))
    as (conn & Hp & He & _).
  - reflexivity.
  - vm_compute. discriminate.
  - vm_compute. reflexivity.
  - reflexivity.
  - reflexivity.
  - reflexivity.
  - reflexivity.
  - reflexivity.
  - reflexivity.
  - apply sample_table_serves.
  - vm_compute. discriminate.
  - exists conn. split; [exact Hp|exact He].
Defined.

Lemma stale_cursor_of_served_rows_witness :
  Sample.run (Sample.request 2 (Some (Sample.cursor_at "u7" 2)))
             (Sample.options Sample.ten)
  = Throw InvalidCursorError.
Proof.
  apply (stale_cursor_of_served_rows (codec := Hex.codec) Sample.id
           (Sample.request 2 (Some (Sample.cursor_at "u7" 2)))
           (Sample.options Sample.ten)
           (Sample.cursor_at "u7" 2)
           {| cursor_id := JS.Str "u7"; cursor_type := JS.Str "User";
              cursor_index := JS.Num 2 |}
           {| direction := ASC; field := Sample.NAME |}
           (createQueryBuilder (Sample.users_of Sample.ten) "user")
           "name" Sample.ten 2%nat (Sample.user "2")).
  - reflexivity.
  - vm_compute. discriminate.
  - vm_compute. reflexivity.
  - reflexivity.
  - reflexivity.
  - vm_compute. discriminate.
  - reflexivity.
  - reflexivity.
  - reflexivity.
  - reflexivity.
  - apply sample_table_serves.
  - vm_compute. discriminate.
Defined.
